(** * bardic-vscode: the preview server ([src/preview_server.py])

    A shallow embedding of the preview subprocess: the values that
    [json.loads] hands to the program, the few Python built-ins the
    program applies to them ([dict.get], truthiness, [is None],
    [dict.update], [len]), the output serializer, the per-line command
    handler with its [try]/[except] structure, the command loop, and
    [main] with its exit status.

    The story engine ([bardic.runtime.engine.BardEngine]) and the JSON
    decoder are not part of the repository: they are the variables of
    the section [Server].  Everything stated below holds for every
    engine and every decoder. *)

From Stdlib Require Import String Ascii List ZArith Bool Lia.
From Stdlib Require Import SpecFloat DecimalString.
Import ListNotations.
Local Open Scope string_scope.
Local Open Scope list_scope.
Set Warnings "-register-all".

(* ===================================================================== *)
(** ** Python values decoded from JSON *)
(* ===================================================================== *)

Module Py.

(** What [json.loads] returns: [None], [bool], [int], [float], [str],
    [list], and [dict] with [str] keys.  A [dict] keeps its insertion
    order, so it is an association list; a well-formed one has no
    repeated key.  A [string] stands for a Python [str] with one
    character per code point. *)
Inductive json : Type :=
| JNull
| JBool (b : bool)
| JInt (z : Z)
| JFloat (f : spec_float)
| JStr (s : string)
| JArr (items : list json)
| JObj (members : list (string * json)).

(** [type(v).__name__], as it appears in the interpreter's messages. *)
Definition type_name (v : json) : string :=
  match v with
  | JNull => "NoneType"
  | JBool _ => "bool"
  | JInt _ => "int"
  | JFloat _ => "float"
  | JStr _ => "str"
  | JArr _ => "list"
  | JObj _ => "dict"
  end.

(** [bool(v)]: what [not v] negates. *)
Definition truthy (v : json) : bool :=
  match v with
  | JNull => false
  | JBool b => b
  | JInt z => negb (Z.eqb z 0)
  | JFloat (S754_zero _) => false
  | JFloat _ => true
  | JStr "" => false
  | JStr _ => true
  | JArr [] => false
  | JArr _ => true
  | JObj [] => false
  | JObj _ => true
  end.

(** [v is None]. *)
Definition is_None (v : json) : bool :=
  match v with JNull => true | _ => false end.

(** [v == s] for a string literal [s]: only an equal [str] is equal. *)
Definition eq_str (v : json) (s : string) : bool :=
  match v with JStr t => String.eqb t s | _ => false end.

(** *** Exceptions *)

(** The classes the program tells apart or meets.  All of them derive
    from [Exception]; [OtherError] stands for any further subclass of
    [Exception] (those an engine raises, for instance). *)
Inductive exc_class : Type :=
| JSONDecodeError
| AttributeError
| TypeError
| ValueError
| OtherError (name : string).

Record exn : Type := Exn { exn_class : exc_class; exn_text : string }.

(** [str(e)]. *)
Definition str (e : exn) : string := exn_text e.

Definition is_JSONDecodeError (e : exn) : bool :=
  match exn_class e with JSONDecodeError => true | _ => false end.

(** A call that returns or raises. *)
Inductive result (A : Type) : Type :=
| Ok (a : A)
| Err (e : exn).
Arguments Ok {A} a.
Arguments Err {A} e.

Definition show_nat (n : nat) : string := NilZero.string_of_uint (Nat.to_uint n).

(** *** [dict] with [str] keys: the decoded objects *)

Fixpoint lookup (k : string) (d : list (string * json)) : option json :=
  match d with
  | [] => None
  | (k', v) :: rest => if String.eqb k' k then Some v else lookup k rest
  end.

Definition keys (d : list (string * json)) : list string := map fst d.

(** [v.get(k, dflt)].  Only a [dict] has the method; on any other
    decoded value the attribute lookup raises [AttributeError]. *)
Definition dict_get (d : list (string * json)) (k : string) (dflt : json) : json :=
  match lookup k d with Some x => x | None => dflt end.

Definition get (v : json) (k : string) (dflt : json) : result json :=
  match v with
  | JObj d => Ok (dict_get d k dflt)
  | _ => Err (Exn AttributeError
                  ("'" ++ type_name v ++ "' object has no attribute 'get'"))
  end.

(** *** [dict] with arbitrary hashable keys: the session state *)

(** The hashable values a decoded document can supply as a key. *)
Inductive pykey : Type :=
| KNone
| KBool (b : bool)
| KInt (z : Z)
| KFloat (f : spec_float)
| KStr (s : string).

(** Keys are compared by [==]: [True == 1 == 1.0], [0.0 == -0.0].  The
    comparison goes through the value a key denotes.  (The decoder
    returns one shared [nan] object, which a [dict] finds by identity.) *)
Inductive keyval : Type :=
| VNone
| VInt (z : Z)
| VFrac (neg : bool) (m : positive) (e : Z)
| VInf (neg : bool)
| VNaN
| VStr (s : string).

(** [m * 2^e] with the trailing zero bits of [m] moved into [e]. *)
Fixpoint odd_part (m : positive) (e : Z) : positive * Z :=
  match m with
  | xO p => odd_part p (e + 1)
  | _ => (m, e)
  end.

Definition float_val (f : spec_float) : keyval :=
  match f with
  | S754_zero _ => VInt 0
  | S754_infinity s => VInf s
  | S754_nan => VNaN
  | S754_finite s m e =>
      let '(m', e') := odd_part m e in
      if (0 <=? e')%Z
      then VInt ((if s then -1 else 1) * (Z.pos m' * 2 ^ e'))
      else VFrac s m' e'
  end.

Definition key_val (k : pykey) : keyval :=
  match k with
  | KNone => VNone
  | KBool b => VInt (if b then 1 else 0)
  | KInt z => VInt z
  | KFloat f => float_val f
  | KStr s => VStr s
  end.

Definition keyval_eqb (a b : keyval) : bool :=
  match a, b with
  | VNone, VNone => true
  | VInt x, VInt y => Z.eqb x y
  | VFrac s m e, VFrac s' m' e' => Bool.eqb s s' && Pos.eqb m m' && Z.eqb e e'
  | VInf s, VInf s' => Bool.eqb s s'
  | VNaN, VNaN => true
  | VStr s, VStr s' => String.eqb s s'
  | _, _ => false
  end.

Definition key_eqb (a b : pykey) : bool := keyval_eqb (key_val a) (key_val b).

(** [hash(v)]: lists and dicts are unhashable. *)
Definition hash_key (v : json) : result pykey :=
  match v with
  | JNull => Ok KNone
  | JBool b => Ok (KBool b)
  | JInt z => Ok (KInt z)
  | JFloat f => Ok (KFloat f)
  | JStr s => Ok (KStr s)
  | JArr _ | JObj _ =>
      Err (Exn TypeError ("unhashable type: '" ++ type_name v ++ "'"))
  end.

Definition pydict : Type := list (pykey * json).

(** [d[k]], as an option. *)
Fixpoint getitem (k : pykey) (d : pydict) : option json :=
  match d with
  | [] => None
  | (k', v) :: rest => if key_eqb k' k then Some v else getitem k rest
  end.

(** [d[k] = v]: an existing entry keeps its place and its key object, a
    new one goes last. *)
Fixpoint setitem (k : pykey) (v : json) (d : pydict) : pydict :=
  match d with
  | [] => [(k, v)]
  | (k', v') :: rest =>
      if key_eqb k' k then (k', v) :: rest else (k', v') :: setitem k v rest
  end.

(** [d.update(other)] for a [dict] argument: every item is stored, in
    the argument's order. *)
Definition merge (other : list (string * json)) (d : pydict) : pydict :=
  fold_left (fun acc kv => setitem (KStr (fst kv)) (snd kv) acc) other d.

(** [d.update(other)] for an argument without [keys()]: the argument is
    iterated, and element [#i] must itself be iterable with exactly two
    elements, a key and a value.  A [str] iterates over its characters,
    a [dict] over its keys. *)
Definition chars (s : string) : list json :=
  map (fun c => JStr (String c "")) (list_ascii_of_string s).

Definition elements (v : json) : option (list json) :=
  match v with
  | JArr l => Some l
  | JStr s => Some (chars s)
  | JObj d => Some (map (fun kv => JStr (fst kv)) d)
  | _ => None
  end.

Definition as_pair (i : nat) (item : json) : result (json * json) :=
  match elements item with
  | None =>
      Err (Exn TypeError ("cannot convert dictionary update sequence element #"
                          ++ show_nat i ++ " to a sequence"))
  | Some [k; v] => Ok (k, v)
  | Some l =>
      Err (Exn ValueError ("dictionary update sequence element #" ++ show_nat i
                           ++ " has length " ++ show_nat (length l)
                           ++ "; 2 is required"))
  end.

(** The items stored before a bad element stay stored: the result is the
    dictionary as the call leaves it, and the exception if one was
    raised. *)
Fixpoint merge_seq (i : nat) (items : list json) (d : pydict)
  : pydict * option exn :=
  match items with
  | [] => (d, None)
  | item :: rest =>
      match as_pair i item with
      | Err e => (d, Some e)
      | Ok (k, v) =>
          match hash_key k with
          | Err e => (d, Some e)
          | Ok key => merge_seq (S i) rest (setitem key v d)
          end
      end
  end.

(** [d.update(other)] for any decoded value. *)
Definition update (d : pydict) (other : json) : pydict * option exn :=
  match other with
  | JObj o => (merge o d, None)
  | JArr items => merge_seq 0 items d
  | JStr s => merge_seq 0 (chars s) d
  | _ => (d, Some (Exn TypeError
                       ("'" ++ type_name other ++ "' object is not iterable")))
  end.

End Py.

Import Py.

(* ===================================================================== *)
(** ** Control: returning, raising, exiting *)
(* ===================================================================== *)

(** How a piece of code ends: it returns a value, raises an exception
    (an instance of [Exception]), or raises [SystemExit] through
    [sys.exit(code)].  [except Exception] catches the second and lets
    the third through. *)
Inductive outcome (A : Type) : Type :=
| Returns (a : A)
| Raises (e : exn)
| Exits (code : Z).
Arguments Returns {A} a.
Arguments Raises {A} e.
Arguments Exits {A} code.

(** Code that runs on a mutable world [S]. *)
Definition M (S A : Type) : Type := S -> outcome A * S.

Definition ret {S A} (a : A) : M S A := fun s => (Returns a, s).

Definition bind {S A B} (c : M S A) (k : A -> M S B) : M S B :=
  fun s =>
    match c s with
    | (Returns a, s') => k a s'
    | (Raises e, s') => (Raises e, s')
    | (Exits n, s') => (Exits n, s')
    end.

(** A pure call that returns or raises. *)
Definition call {S A} (r : result A) : M S A :=
  fun s => match r with Ok a => (Returns a, s) | Err e => (Raises e, s) end.

(** [try: body  except Exception as e: handler(e)].  What the body did
    to the world before raising stays done. *)
Definition try_except {S A} (body : M S A) (handler : exn -> M S A) : M S A :=
  fun s =>
    match body s with
    | (Raises e, s') => handler e s'
    | r => r
    end.

Declare Scope py_scope.
Delimit Scope py_scope with py.
Notation "x <- c ;; k" := (bind c (fun x => k))
  (at level 61, c at next level, right associativity) : py_scope.
Notation "c ;;; k" := (bind c (fun _ => k))
  (at level 61, right associativity) : py_scope.
Local Open Scope py_scope.

(* ===================================================================== *)
(** ** The server *)
(* ===================================================================== *)

(** The engine's [PassageOutput], as far as the server reads it. *)
Record PassageOutput : Type := {
  content : string;
  choices : list json;
  passage_id : string
}.

(** [serialize_output(output)] (lines 24-39). *)
Definition serialize_output (output : PassageOutput) : json :=
  JObj [ ("content", JStr (content output));
         ("choices", JArr (choices output));
         ("passage_id", JStr (passage_id output));
         ("has_choices", JBool (0 <? length (choices output))%nat) ].

(** The methods of the engine the server calls, for the trace. *)
Inductive engine_call : Type :=
| CallGoto (passage : json)
| CallChoose (index : json)
| CallCurrent.

(** One call of [sys.stdin.readline()] that found input: a line, or a
    failure of the read itself.  At end of input the call returns the
    empty string. *)
Inductive read_event : Type :=
| Line (text : string)
| ReadError (e : exn).

(** How an iteration of [while True] ends. *)
Inductive loop_ctl : Type :=
| LoopNext    (* [continue], or the end of the body *)
| LoopBreak.  (* [break] *)

Section Server.

(** The engine object apart from its [state] attribute. *)
Variable EngineCore : Type.

(** [engine.state] is a dict owned by the engine; the rest of the
    object is opaque. *)
Record Engine : Type := {
  state : pydict;
  core : EngineCore
}.

(** [json.loads] on a line of text. *)
Variable json_loads : string -> result json.

(** [BardEngine(story_data)] and the three methods.  A method may
    change the engine whether it returns or raises. *)
Variable BardEngine : json -> result Engine.
Variable goto : json -> Engine -> result PassageOutput * Engine.
Variable choose : json -> Engine -> result PassageOutput * Engine.
Variable current : Engine -> result PassageOutput * Engine.

(** [traceback.format_exc()] in a handler of [e]. *)
Variable format_exc : exn -> string.

(** The world of the command loop: the engine, the lines written to
    standard output so far (each one flushed), and the engine methods
    called so far. *)
Record World : Type := {
  engine : Engine;
  stdout : list json;
  calls : list engine_call
}.

(** [print(json.dumps(v), flush=True)]. *)
Definition emit (v : json) (w : World) : World :=
  {| engine := engine w; stdout := stdout w ++ [v]; calls := calls w |}.

Definition print (v : json) : M World unit := fun w => (Returns tt, emit v w).

(** [engine.state.update(other)]. *)
Definition engine_state_update (other : json) : M World unit :=
  fun w =>
    let '(st, raised) := Py.update (state (engine w)) other in
    let w' := {| engine := {| state := st; core := core (engine w) |};
                 stdout := stdout w; calls := calls w |} in
    match raised with
    | None => (Returns tt, w')
    | Some e => (Raises e, w')
    end.

(** A method call on the engine. *)
Definition invoke (c : engine_call)
    (method : Engine -> result PassageOutput * Engine) : M World PassageOutput :=
  fun w =>
    let '(r, eng) := method (engine w) in
    let w' := {| engine := eng; stdout := stdout w; calls := calls w ++ [c] |} in
    match r with
    | Ok output => (Returns output, w')
    | Err e => (Raises e, w')
    end.

Definition engine_goto (passage : json) : M World PassageOutput :=
  invoke (CallGoto passage) (goto passage).
Definition engine_choose (index : json) : M World PassageOutput :=
  invoke (CallChoose index) (choose index).
Definition engine_current : M World PassageOutput :=
  invoke CallCurrent current.

(** The records the server writes. *)
Definition error_record (tag : string) : json :=
  JObj [("error", JStr tag)].
Definition error_message (tag : string) (e : exn) : json :=
  JObj [("error", JStr tag); ("message", JStr (str e))].
Definition unknown_command (command_type : json) : json :=
  JObj [("error", JStr "Unknown command type"); ("type", command_type)].
Definition init_failed (e : exn) : json :=
  JObj [("error", JStr "Engine initialization failed");
        ("message", JStr (str e));
        ("traceback", JStr (format_exc e))].
Definition ready : json := JObj [("status", JStr "ready")].

(** The body of the [try] statement of the loop (lines 82-149). *)
Definition try_body (line : string) : M World loop_ctl :=
  command <- call (json_loads line) ;;
  command_type <- call (Py.get command "type" JNull) ;;
  if eq_str command_type "preview" then
    passage <- call (Py.get command "passage" JNull) ;;
    user_state <- call (Py.get command "state" (JObj [])) ;;
    if negb (truthy passage) then
      print (error_record "Missing passage ID") ;;;
      ret LoopNext
    else
      engine_state_update user_state ;;;
      try_except
        (output <- engine_goto passage ;;
         print (serialize_output output))
        (fun e => print (error_message "Engine error" e)) ;;;
      ret LoopNext
  else if eq_str command_type "choice" then
    choice_index <- call (Py.get command "index" JNull) ;;
    if is_None choice_index then
      print (error_record "Missing choice index") ;;;
      ret LoopNext
    else
      try_except
        (output <- engine_choose choice_index ;;
         print (serialize_output output))
        (fun e => print (error_message "Choice error" e)) ;;;
      ret LoopNext
  else if eq_str command_type "current" then
    try_except
      (output <- engine_current ;;
       print (serialize_output output))
      (fun e => print (error_message "Engine error" e)) ;;;
    ret LoopNext
  else if eq_str command_type "exit" then
    ret LoopBreak
  else
    print (unknown_command command_type) ;;;
    ret LoopNext.

(** The [try] statement with its two [except] clauses (lines 81-160):
    [json.JSONDecodeError] first, then [Exception]. *)
Definition handle_line (line : string) : M World loop_ctl :=
  try_except (try_body line)
    (fun e =>
       if is_JSONDecodeError e
       then print (error_message "Invalid JSON" e) ;;; ret LoopNext
       else print (error_message "Unexpected error" e) ;;; ret LoopNext).

(** For stating what a line does.  The world with another standard
    output; the lines the handler writes for [line], whatever was
    written before; the commands that stop the loop; the input events
    that run one iteration and go on to the next. *)
Definition with_stdout (out : list json) (w : World) : World :=
  {| engine := engine w; stdout := out; calls := calls w |}.

(** Code that never reads standard output and only appends to it. *)
Definition framed {A : Type} (c : M World A) : Prop :=
  forall (w : World) (out : list json),
    c (with_stdout out w)
    = let '(r, w') := c (with_stdout [] w) in (r, with_stdout (out ++ stdout w') w').

Definition response (line : string) (w : World) : list json :=
  stdout (snd (handle_line line (with_stdout [] w))).

Definition is_exit_command (line : string) : bool :=
  match json_loads line with
  | Ok (JObj d) => eq_str (dict_get d "type" JNull) "exit"
  | _ => false
  end.

Definition is_command (ev : read_event) : bool :=
  match ev with
  | Line line => negb (String.eqb line "") && negb (is_exit_command line)
  | ReadError _ => false
  end.

(** The [while True] loop (lines 76-160) on the input still to come.
    It returns how it ended, the world it leaves, and the input it
    did not read. *)
Fixpoint command_loop (stdin : list read_event) (w : World)
  : outcome unit * World * list read_event :=
  match stdin with
  | [] => (Returns tt, w, [])                 (* readline() gave '' *)
  | ReadError e :: rest => (Raises e, w, rest)
  | Line line :: rest =>
      if String.eqb line ""
      then (Returns tt, w, rest)              (* if not line: break *)
      else
        match handle_line line w with
        | (Returns LoopNext, w') => command_loop rest w'
        | (Returns LoopBreak, w') => (Returns tt, w', rest)
        | (Raises e, w') => (Raises e, w', rest)
        | (Exits n, w') => (Exits n, w', rest)
        end
  end.

(** What the process leaves behind. *)
Record Process : Type := {
  exit_status : Z;
  output : list json;
  unread : list read_event;
  final_engine : option Engine;
  engine_calls : list engine_call
}.

(** The statements of [main] inside the outer [try] (lines 46-160). *)
Definition main_body (stdin : list read_event)
  : outcome unit * list json * list read_event * option Engine * list engine_call :=
  match stdin with
  | ReadError e :: rest => (Raises e, [], rest, None, [])
  | [] =>
      (Exits 1, [error_record "No story data provided"], [], None, [])
  | Line story_line :: rest =>
      if String.eqb story_line ""
      then (Exits 1, [error_record "No story data provided"], rest, None, [])
      else
        match json_loads story_line with
        | Err e =>
            if is_JSONDecodeError e
            then (Exits 1, [error_message "Invalid story JSON" e], rest, None, [])
            else (Raises e, [], rest, None, [])
        | Ok story_data =>
            match BardEngine story_data with
            | Err e => (Exits 1, [init_failed e], rest, None, [])
            | Ok eng =>
                let w0 := {| engine := eng; stdout := [ready]; calls := [] |} in
                let '(r, w, rest') := command_loop rest w0 in
                (r, stdout w, rest', Some (engine w), calls w)
            end
        end
  end.

(** [main()] as the interpreter runs it: the outer [except Exception]
    (lines 162-167) and the exit status. *)
Definition main (stdin : list read_event) : Process :=
  let '(r, out, rest, eng, cs) := main_body stdin in
  match r with
  | Returns _ =>
      {| exit_status := 0; output := out; unread := rest;
         final_engine := eng; engine_calls := cs |}
  | Exits n =>
      {| exit_status := n; output := out; unread := rest;
         final_engine := eng; engine_calls := cs |}
  | Raises e =>
      {| exit_status := 1; output := out ++ [error_message "Fatal error" e];
         unread := rest; final_engine := eng; engine_calls := cs |}
  end.

(** The script as the interpreter runs it: the import of the engine at
    the top of the file (lines 13-21), then [main()] (lines 170-171).
    Without the engine's package the script ends before [main]. *)
Definition preview_server (bardic_installed : bool) (stdin : list read_event)
  : Process :=
  if bardic_installed then main stdin
  else {| exit_status := 1;
          output := [JObj [("error", JStr "Bardic not installed");
                           ("message", JStr "Please install bardic: pip install bardic")]];
          unread := stdin; final_engine := None; engine_calls := [] |}.

End Server.

Arguments state {EngineCore} _.
Arguments core {EngineCore} _.
Arguments Build_Engine {EngineCore} _ _.
Arguments engine {EngineCore} _.
Arguments stdout {EngineCore} _.
Arguments calls {EngineCore} _.
Arguments Build_World {EngineCore} _ _ _.
Arguments emit {EngineCore} _ _.
Arguments with_stdout {EngineCore} _ _.
Arguments framed {EngineCore A} _.
Arguments print {EngineCore} _ _.
Arguments engine_state_update {EngineCore} _ _.
Arguments invoke {EngineCore} _ _ _.
Arguments exit_status {EngineCore} _.
Arguments output {EngineCore} _.
Arguments unread {EngineCore} _.
Arguments final_engine {EngineCore} _.
Arguments engine_calls {EngineCore} _.

(** For stating what the output looks like: the tag of an error
    record; the tags the loop writes and goes on after; the tags the
    process writes last, before it exits with status 1; the lines a
    command can be answered with. *)
Definition error_tag (r : json) : option string :=
  match r with
  | JObj d => match lookup "error" d with Some (JStr t) => Some t | _ => None end
  | _ => None
  end.

Definition recoverable_tags : list string :=
  ["Missing passage ID"; "Engine error"; "Missing choice index"; "Choice error";
   "Unknown command type"; "Invalid JSON"; "Unexpected error"].

Definition fatal_tags : list string :=
  ["No story data provided"; "Invalid story JSON"; "Engine initialization failed";
   "Fatal error"].

Definition is_response (r : json) : Prop :=
  (exists o, r = serialize_output o)
  \/ (exists t, error_tag r = Some t /\ In t recoverable_tags).

(* ===================================================================== *)
(** ** A small engine and decoder to run the server on *)
(* ===================================================================== *)

Module Demo.

(** *** A decoder for JSON without escapes, fractions or exponents *)

Definition dquote : ascii := ascii_of_nat 34.

(** Lines are written with ['] where the JSON text has the double quote. *)
Fixpoint text (s : string) : string :=
  match s with
  | EmptyString => EmptyString
  | String c r => String (if Ascii.eqb c "'" then dquote else c) (text r)
  end.

Definition is_ws (c : ascii) : bool :=
  match nat_of_ascii c with
  | 32 | 9 | 10 | 13 => true
  | _ => false
  end.

Fixpoint skip_ws (s : string) : string :=
  match s with
  | String c r => if is_ws c then skip_ws r else s
  | EmptyString => s
  end.

Definition digit (c : ascii) : option Z :=
  let n := nat_of_ascii c in
  if (48 <=? n)%nat && (n <=? 57)%nat then Some (Z.of_nat (n - 48)) else None.

Fixpoint read_digits (s : string) (acc : Z) : Z * string :=
  match s with
  | String c r =>
      match digit c with
      | Some d => read_digits r (10 * acc + d)
      | None => (acc, s)
      end
  | EmptyString => (acc, s)
  end.

(** The characters up to the closing quote. *)
Fixpoint read_string (s : string) : option (string * string) :=
  match s with
  | EmptyString => None
  | String c r =>
      if Ascii.eqb c dquote then Some (EmptyString, r)
      else match read_string r with
           | Some (t, r') => Some (String c t, r')
           | None => None
           end
  end.

(** A repeated key keeps its first place and takes the last value. *)
Fixpoint store (k : string) (v : json) (d : list (string * json))
  : list (string * json) :=
  match d with
  | [] => [(k, v)]
  | (k', v') :: rest =>
      if String.eqb k' k then (k', v) :: rest else (k', v') :: store k v rest
  end.

Fixpoint parse_value (fuel : nat) (s : string) : option (json * string) :=
  match fuel with
  | O => None
  | S n =>
      match skip_ws s with
      | String "n" (String "u" (String "l" (String "l" r))) => Some (JNull, r)
      | String "t" (String "r" (String "u" (String "e" r))) => Some (JBool true, r)
      | String "f" (String "a" (String "l" (String "s" (String "e" r)))) =>
          Some (JBool false, r)
      | String "[" r =>
          match skip_ws r with
          | String "]" r' => Some (JArr [], r')
          | _ => parse_items n r []
          end
      | String "{" r =>
          match skip_ws r with
          | String "}" r' => Some (JObj [], r')
          | _ => parse_members n r []
          end
      | String "-" r =>
          match r with
          | String c _ =>
              match digit c with
              | Some _ => let '(z, r') := read_digits r 0 in Some (JInt (- z), r')
              | None => None
              end
          | EmptyString => None
          end
      | String c r =>
          if Ascii.eqb c dquote then
            match read_string r with
            | Some (t, r') => Some (JStr t, r')
            | None => None
            end
          else
            match digit c with
            | Some _ => let '(z, r') := read_digits (String c r) 0 in Some (JInt z, r')
            | None => None
            end
      | EmptyString => None
      end
  end
with parse_items (fuel : nat) (s : string) (acc : list json)
  : option (json * string) :=
  match fuel with
  | O => None
  | S n =>
      match parse_value n s with
      | None => None
      | Some (v, r) =>
          match skip_ws r with
          | String "," r' => parse_items n r' (acc ++ [v])
          | String "]" r' => Some (JArr (acc ++ [v]), r')
          | _ => None
          end
      end
  end
with parse_members (fuel : nat) (s : string) (acc : list (string * json))
  : option (json * string) :=
  match fuel with
  | O => None
  | S n =>
      match skip_ws s with
      | String c r =>
          if Ascii.eqb c dquote then
            match read_string r with
            | None => None
            | Some (k, r1) =>
                match skip_ws r1 with
                | String ":" r2 =>
                    match parse_value n r2 with
                    | None => None
                    | Some (v, r3) =>
                        match skip_ws r3 with
                        | String "," r4 => parse_members n r4 (store k v acc)
                        | String "}" r4 => Some (JObj (store k v acc), r4)
                        | _ => None
                        end
                    end
                | _ => None
                end
            end
          else None
      | EmptyString => None
      end
  end.

Definition loads (s : string) : result json :=
  match parse_value (S (String.length s)) s with
  | Some (v, r) =>
      match skip_ws r with
      | EmptyString => Ok v
      | _ => Err (Exn JSONDecodeError "Extra data")
      end
  | None => Err (Exn JSONDecodeError "Expecting value")
  end.

(** *** A story of two passages

    [start] offers one choice, which leads to [end]; [end] offers none.
    The engine's core is the id of the current passage.  The text of a
    passage shows the variable [gold] when the state has it. *)

Definition passage_output (st : pydict) (p : string) : PassageOutput :=
  {| content := match getitem (KStr "gold") st with
                | Some (JInt z) => if (0 <? z)%Z then "You are rich." else "You are poor."
                | _ => "You have nothing."
                end;
     choices := if String.eqb p "start"
                then [JObj [("index", JInt 0); ("text", JStr "Leave");
                            ("target", JStr "end")]]
                else [];
     passage_id := p |}.

Definition known (p : string) : bool := String.eqb p "start" || String.eqb p "end".

(** The story document names the passage to begin with. *)
Definition BardEngine (story : json) : result (Engine string) :=
  match story with
  | JObj d =>
      match lookup "initial" d with
      | Some (JStr p) => Ok {| state := []; core := p |}
      | _ => Ok {| state := []; core := "start" |}
      end
  | _ => Err (Exn (OtherError "KeyError") "'passages'")
  end.

Definition goto (passage : json) (eng : Engine string)
  : result PassageOutput * Engine string :=
  match passage with
  | JStr p =>
      if known p
      then (Ok (passage_output (state eng) p), {| state := state eng; core := p |})
      else (Err (Exn ValueError ("Passage '" ++ p ++ "' not found")), eng)
  | _ => (Err (Exn TypeError "passage id must be a string"), eng)
  end.

Definition choose (index : json) (eng : Engine string)
  : result PassageOutput * Engine string :=
  match index with
  | JInt 0 =>
      if String.eqb (core eng) "start"
      then goto (JStr "end") eng
      else (Err (Exn (OtherError "IndexError") "Choice index 0 out of range"), eng)
  | _ => (Err (Exn (OtherError "IndexError") "Choice index out of range"), eng)
  end.

Definition current (eng : Engine string) : result PassageOutput * Engine string :=
  if known (core eng)
  then (Ok (passage_output (state eng) (core eng)), eng)
  else (Err (Exn ValueError ("Passage '" ++ core eng ++ "' not found")), eng).

Definition format_exc (e : exn) : string :=
  "Traceback (most recent call last): " ++ str e.

Definition handle (line : string) : M (World string) loop_ctl :=
  handle_line string loads goto choose current line.

Definition loop (stdin : list read_event) (w : World string) :=
  command_loop string loads goto choose current stdin w.

Definition run (stdin : list read_event) : Process string :=
  main string loads BardEngine goto choose current format_exc stdin.

Definition story : string := text "{'title':'demo'}".

Definition eng0 : Engine string := {| state := []; core := "start" |}.
Definition w0 : World string := {| engine := eng0; stdout := [ready]; calls := [] |}.

(** An engine that has lost its passage, and one with some state. *)
Definition w_lost : World string :=
  {| engine := {| state := []; core := "limbo" |}; stdout := [ready]; calls := [] |}.
Definition w_poor : World string :=
  {| engine := {| state := [(KStr "name", JStr "Ann"); (KStr "gold", JInt 0)];
                  core := "start" |};
     stdout := [ready]; calls := [] |}.

End Demo.

(** The scenario of a session that asks for the current passage and
    leaves. *)
Example demo_session :
  Demo.run [Line Demo.story; Line (Demo.text "{'type':'current'}");
            Line (Demo.text "{'type':'exit'}")]
  = {| exit_status := 0;
       output := [ready;
                  JObj [("content", JStr "You have nothing.");
                        ("choices", JArr [JObj [("index", JInt 0);
                                                ("text", JStr "Leave");
                                                ("target", JStr "end")]]);
                        ("passage_id", JStr "start");
                        ("has_choices", JBool true)]];
       unread := [];
       final_engine := Some Demo.eng0;
       engine_calls := [CallCurrent] |}.
Proof. vm_compute. reflexivity. Qed.

(** An overlay is visible to the next command. *)
Example demo_overlay :
  output (Demo.run [Line Demo.story;
                    Line (Demo.text "{'type':'preview','passage':'end','state':{'gold':5}}");
                    Line (Demo.text "{'type':'current'}")])
  = [ready;
     JObj [("content", JStr "You are rich."); ("choices", JArr []);
           ("passage_id", JStr "end"); ("has_choices", JBool false)];
     JObj [("content", JStr "You are rich."); ("choices", JArr []);
           ("passage_id", JStr "end"); ("has_choices", JBool false)]].
Proof. vm_compute. reflexivity. Qed.

(** A line that is not JSON costs one error record and nothing else. *)
Example demo_recovery :
  Demo.run [Line Demo.story; Line (Demo.text "{'type':");
            Line (Demo.text "{'type':'choice','index':0}");
            Line (Demo.text "{'type':'exit'}"); Line (Demo.text "{'type':'current'}")]
  = {| exit_status := 0;
       output := [ready;
                  JObj [("error", JStr "Invalid JSON"); ("message", JStr "Expecting value")];
                  JObj [("content", JStr "You have nothing."); ("choices", JArr []);
                        ("passage_id", JStr "end"); ("has_choices", JBool false)]];
       unread := [Line (Demo.text "{'type':'current'}")];
       final_engine := Some {| state := []; core := "end" |};
       engine_calls := [CallChoose (JInt 0)] |}.
Proof. vm_compute. reflexivity. Qed.

(** A failed read ends the process at the outer handler. *)
Example demo_fatal :
  Demo.run [Line Demo.story; ReadError (Exn (OtherError "UnicodeDecodeError") "invalid start byte")]
  = {| exit_status := 1;
       output := [ready;
                  JObj [("error", JStr "Fatal error"); ("message", JStr "invalid start byte")]];
       unread := [];
       final_engine := Some Demo.eng0;
       engine_calls := [] |}.
Proof. vm_compute. reflexivity. Qed.

(** Without the engine's package nothing is read. *)
Example demo_not_installed :
  preview_server string Demo.loads Demo.BardEngine Demo.goto Demo.choose Demo.current
    Demo.format_exc false [Line Demo.story]
  = {| exit_status := 1;
       output := [JObj [("error", JStr "Bardic not installed");
                        ("message", JStr "Please install bardic: pip install bardic")]];
       unread := [Line Demo.story];
       final_engine := None;
       engine_calls := [] |}.
Proof. reflexivity. Qed.

(** Built-ins on concrete values. *)
Example update_pairs :
  update [(KStr "k", JInt 0)]
    (JArr [JStr "ab"; JArr [JInt 1; JStr "x"]; JArr [JBool true; JStr "y"];
           JArr [JFloat (S754_finite false 4503599627370496 (-52)); JStr "z"]])
  = ([(KStr "k", JInt 0); (KStr "a", JStr "b"); (KInt 1, JStr "z")], None).
Proof. vm_compute. reflexivity. Qed.

Example update_partial :
  update [(KStr "k", JInt 0)] (JArr [JArr [JStr "a"; JInt 1]; JInt 5])
  = ([(KStr "k", JInt 0); (KStr "a", JInt 1)],
     Some (Exn TypeError
             "cannot convert dictionary update sequence element #1 to a sequence")).
Proof. vm_compute. reflexivity. Qed.

Example update_empty_list :
  update [(KStr "k", JInt 0)] (JArr []) = ([(KStr "k", JInt 0)], None).
Proof. reflexivity. Qed.

(* ===================================================================== *)
(** ** Facts about the Python built-ins *)
(* ===================================================================== *)

Lemma eq_str_true (v : json) (s : string) : eq_str v s = true <-> v = JStr s.
Proof.
  destruct v; simpl; try (split; [discriminate | intros H; discriminate H]).
  rewrite String.eqb_eq. split; intros H; [subst | injection H]; auto.
Qed.

Lemma eq_str_false (v : json) (s : string) : eq_str v s = false <-> v <> JStr s.
Proof.
  rewrite <- eq_str_true. destruct (eq_str v s); split; intros; congruence.
Qed.

Lemma keyval_eqb_eq (a b : keyval) : keyval_eqb a b = true <-> a = b.
Proof.
  destruct a, b; simpl; try (split; [discriminate | intros H; discriminate H]);
    try tauto.
  - rewrite Z.eqb_eq. split; intros H; [subst | injection H]; auto.
  - rewrite !andb_true_iff, Bool.eqb_true_iff, Pos.eqb_eq, Z.eqb_eq.
    split; [intros [[-> ->] ->]; reflexivity | intros H; injection H; auto].
  - rewrite Bool.eqb_true_iff. split; intros H; [subst | injection H]; auto.
  - rewrite String.eqb_eq. split; intros H; [subst | injection H]; auto.
Qed.

Lemma key_eqb_eq (a b : pykey) : key_eqb a b = true <-> key_val a = key_val b.
Proof. apply keyval_eqb_eq. Qed.

Lemma key_eqb_refl (a : pykey) : key_eqb a a = true.
Proof. apply key_eqb_eq. reflexivity. Qed.

(** Two keys that are equal to each other are equal to the same keys. *)
Lemma key_eqb_trans (a b c : pykey) :
  key_eqb a b = true -> key_eqb a c = key_eqb b c.
Proof.
  intros H. apply key_eqb_eq in H. unfold key_eqb. rewrite H. reflexivity.
Qed.

Lemma key_eqb_str (s t : string) : key_eqb (KStr s) (KStr t) = String.eqb s t.
Proof. reflexivity. Qed.

(** What [update] raises is a [TypeError] or a [ValueError]. *)
Lemma merge_seq_error (items : list json) :
  forall (i : nat) (d d' : pydict) (e : exn),
    merge_seq i items d = (d', Some e) -> is_JSONDecodeError e = false.
Proof.
  induction items as [| item items IH]; intros i d d' e H; simpl in H.
  - discriminate.
  - unfold as_pair in H.
    destruct (elements item) as [[| k [| v [| x l]]] |];
      try (injection H as _ <-; reflexivity).
    destruct (hash_key k) as [key | e'] eqn:Hk.
    + exact (IH _ _ _ _ H).
    + injection H as _ <-. destruct k; simpl in Hk; try discriminate;
        injection Hk as <-; reflexivity.
Qed.

Lemma update_error (d d' : pydict) (v : json) (e : exn) :
  update d v = (d', Some e) -> is_JSONDecodeError e = false.
Proof.
  destruct v; simpl; intros H;
    try (injection H as _ <-; reflexivity);
    try discriminate;
    exact (merge_seq_error _ _ _ _ _ H).
Qed.

(** A value that cannot be iterated leaves the dictionary alone. *)
Lemma update_not_iterable (d : pydict) (v : json) :
  elements v = None ->
  update d v
  = (d, Some (Exn TypeError ("'" ++ type_name v ++ "' object is not iterable"))).
Proof. destruct v; simpl; intros H; try discriminate; reflexivity. Qed.

(** Only a [str] key is equal to a [str] key. *)
Lemma key_eqb_str_inv (s : string) (k : pykey) :
  key_eqb (KStr s) k = true -> k = KStr s.
Proof.
  intros H. apply key_eqb_eq in H. destruct k; simpl in H; try discriminate.
  - unfold float_val in H. destruct f as [| | | sg m e]; try discriminate.
    destruct (odd_part m e) as [m' e']. destruct (0 <=? e')%Z; discriminate.
  - injection H as ->. reflexivity.
Qed.

(** Reading after [d[k'] = v]. *)
Lemma getitem_setitem (k k' : pykey) (v : json) (d : pydict) :
  getitem k (setitem k' v d) = if key_eqb k' k then Some v else getitem k d.
Proof.
  induction d as [| [k0 v0] d IH]; simpl.
  - reflexivity.
  - destruct (key_eqb k0 k') eqn:E0; simpl.
    + rewrite (key_eqb_trans _ _ k E0). destruct (key_eqb k' k); reflexivity.
    + rewrite IH. destruct (key_eqb k0 k) eqn:E1; [| reflexivity].
      destruct (key_eqb k' k) eqn:E2; [| reflexivity].
      apply key_eqb_eq in E1, E2. 
      assert (key_eqb k0 k' = true) by (apply key_eqb_eq; congruence).
      congruence.
Qed.

(** A key the argument does not mention reads as before the merge. *)
Lemma getitem_merge_other (k : pykey) (other : list (string * json)) :
  forall d : pydict,
    (forall s, In s (keys other) -> key_eqb (KStr s) k = false) ->
    getitem k (merge other d) = getitem k d.
Proof.
  unfold merge. induction other as [| [s v] other IH]; intros d H; simpl.
  - reflexivity.
  - rewrite IH.
    + rewrite getitem_setitem, (H s); [reflexivity | left; reflexivity].
    + intros s' Hs'. apply H. right. exact Hs'.
Qed.

(** A key of a well-formed argument reads as the argument's value. *)
Lemma getitem_merge_key (s : string) (v : json) (other : list (string * json)) :
  forall d : pydict,
    NoDup (keys other) ->
    lookup s other = Some v ->
    getitem (KStr s) (merge other d) = Some v.
Proof.
  unfold merge. induction other as [| [s0 v0] other IH]; intros d Hnd Hl; simpl in *.
  - discriminate.
  - inversion Hnd as [| ? ? Hnotin Hnd']; subst.
    destruct (String.eqb s0 s) eqn:E.
    + apply String.eqb_eq in E. subst s0. injection Hl as ->.
      fold (merge other (setitem (KStr s) v d)).
      rewrite getitem_merge_other.
      * rewrite getitem_setitem, key_eqb_refl. reflexivity.
      * intros s' Hs'. rewrite key_eqb_str. apply String.eqb_neq.
        intros ->. contradiction.
    + apply IH; assumption.
Qed.

(** Storing never removes a key. *)
Lemma setitem_keeps (k k' : pykey) (v : json) (d : pydict) :
  getitem k d <> None -> getitem k (setitem k' v d) <> None.
Proof.
  intros H. rewrite getitem_setitem. destruct (key_eqb k' k); [discriminate | exact H].
Qed.

Lemma merge_keeps (k : pykey) (other : list (string * json)) :
  forall d : pydict, getitem k d <> None -> getitem k (merge other d) <> None.
Proof.
  unfold merge. induction other as [| [s v] other IH]; intros d H; simpl.
  - exact H.
  - apply IH. apply setitem_keeps. exact H.
Qed.

Lemma merge_seq_keeps (k : pykey) (items : list json) :
  forall (i : nat) (d : pydict),
    getitem k d <> None -> getitem k (fst (merge_seq i items d)) <> None.
Proof.
  induction items as [| item items IH]; intros i d H; simpl.
  - exact H.
  - destruct (as_pair i item) as [[a b] | e]; [| exact H].
    destruct (hash_key a) as [key | e]; [| exact H].
    apply IH. apply setitem_keeps. exact H.
Qed.

Lemma update_keeps (k : pykey) (d : pydict) (other : json) :
  getitem k d <> None -> getitem k (fst (update d other)) <> None.
Proof.
  intros H. destruct other; simpl; try exact H.
  - apply merge_seq_keeps. exact H.
  - apply merge_seq_keeps. exact H.
  - apply merge_keeps. exact H.
Qed.

(** A key that a dict does not have is none of its keys. *)
Lemma lookup_None (k : string) (o : list (string * json)) :
  lookup k o = None -> forall s, In s (keys o) -> key_eqb (KStr s) (KStr k) = false.
Proof.
  induction o as [| [s0 v0] o IH]; simpl; intros H s Hin.
  - contradiction.
  - destruct (String.eqb s0 k) eqn:E; [discriminate |].
    destruct Hin as [<- | Hin]; [exact E | exact (IH H s Hin)].
Qed.

(** A list of [[key, value]] pairs is stored like the dict of the same
    items. *)
Lemma merge_seq_pairs (o : list (string * json)) :
  forall (i : nat) (d : pydict),
    merge_seq i (map (fun kv => JArr [JStr (fst kv); snd kv]) o) d = (merge o d, None).
Proof.
  unfold merge. induction o as [| [s v] o IH]; intros i d; simpl.
  - reflexivity.
  - apply IH.
Qed.

(** Pairs stored before the rest of a list is looked at. *)
Lemma merge_seq_pairs_app (o : list (string * json)) (rest : list json) :
  forall (i : nat) (d : pydict),
    merge_seq i (map (fun kv => JArr [JStr (fst kv); snd kv]) o ++ rest) d
    = merge_seq (i + length o) rest (merge o d).
Proof.
  unfold merge. induction o as [| [s v] o IH]; intros i d; simpl.
  - rewrite Nat.add_0_r. reflexivity.
  - rewrite IH. rewrite <- Nat.add_succ_comm. reflexivity.
Qed.

(* ===================================================================== *)
(** ** Facts about the server *)
(* ===================================================================== *)

Section Facts.

Variable EngineCore : Type.
Variable json_loads : string -> result json.
Variable BardEngine : json -> result (Engine EngineCore).
Variable goto : json -> Engine EngineCore -> result PassageOutput * Engine EngineCore.
Variable choose : json -> Engine EngineCore -> result PassageOutput * Engine EngineCore.
Variable current : Engine EngineCore -> result PassageOutput * Engine EngineCore.
Variable format_exc : exn -> string.

Local Abbreviation World := (World EngineCore).
Local Abbreviation try_body := (try_body EngineCore json_loads goto choose current).
Local Abbreviation handle_line := (handle_line EngineCore json_loads goto choose current).
Local Abbreviation framed := (framed (EngineCore := EngineCore)).
Local Abbreviation response := (response EngineCore json_loads goto choose current).
Local Abbreviation is_exit_command := (is_exit_command json_loads).
Local Abbreviation is_command := (is_command json_loads).
Local Abbreviation command_loop := (command_loop EngineCore json_loads goto choose current).
Local Abbreviation main_body :=
  (main_body EngineCore json_loads BardEngine goto choose current format_exc).
Local Abbreviation main :=
  (main EngineCore json_loads BardEngine goto choose current format_exc).

(** Running a command by unfolding the handler. *)
Ltac unfold_handler :=
  unfold handle_line, try_body, try_except, bind, call, ret,
    print, engine_state_update, engine_goto, engine_choose, engine_current, invoke,
    Py.get.

(** Case analysis on whatever the handler scrutinises next. *)
Ltac branch :=
  match goal with
  | |- context [match ?x with _ => _ end] =>
      lazymatch x with
      | context [match _ with _ => _ end] => fail
      | _ => destruct x eqn:?
      end
  end.

(** *** The handler only appends to standard output *)

Lemma with_stdout_idem (out out' : list json) (w : World) :
  with_stdout out (with_stdout out' w) = with_stdout out w.
Proof. reflexivity. Qed.

Lemma with_stdout_own (w : World) : with_stdout (stdout w) w = w.
Proof. destruct w; reflexivity. Qed.

Lemma framed_at {A : Type} (c : M World A) (w : World) :
  framed c ->
  c w = let '(r, w') := c (with_stdout [] w) in (r, with_stdout (stdout w ++ stdout w') w').
Proof. intros H. rewrite <- (H w (stdout w)), with_stdout_own. reflexivity. Qed.

Lemma framed_ret {A : Type} (a : A) : framed (ret a).
Proof. intros w out. unfold ret, with_stdout; simpl. rewrite app_nil_r. reflexivity. Qed.

Lemma framed_call {A : Type} (r : result A) : framed (call r).
Proof.
  intros w out. unfold call, with_stdout; destruct r; simpl; rewrite app_nil_r; reflexivity.
Qed.

Lemma framed_print (v : json) : framed (print v).
Proof. intros w out. reflexivity. Qed.

Lemma framed_engine_state_update (v : json) : framed (engine_state_update v).
Proof.
  intros w out. unfold engine_state_update, with_stdout; simpl.
  destruct (update (state (engine w)) v) as [st [e |]]; simpl; rewrite app_nil_r; reflexivity.
Qed.

Lemma framed_invoke (c : engine_call)
    (method : Engine EngineCore -> result PassageOutput * Engine EngineCore) :
  framed (invoke c method).
Proof.
  intros w out. unfold invoke, with_stdout; simpl.
  destruct (method (engine w)) as [[o | e] eng]; simpl; rewrite app_nil_r; reflexivity.
Qed.

Lemma framed_bind {A B : Type} (c : M World A) (k : A -> M World B) :
  framed c -> (forall a, framed (k a)) -> framed (bind c k).
Proof.
  intros Hc Hk w out. unfold bind. rewrite (Hc w out).
  destruct (c (with_stdout [] w)) as [[a | e | n] w1]; simpl; try reflexivity.
  rewrite (Hk a w1 (out ++ stdout w1)), (framed_at (k a) w1 (Hk a)).
  destruct (k a (with_stdout [] w1)) as [r w2]. unfold with_stdout; simpl.
  rewrite app_assoc. reflexivity.
Qed.

Lemma framed_try_except {A : Type} (body : M World A) (handler : exn -> M World A) :
  framed body -> (forall e, framed (handler e)) -> framed (try_except body handler).
Proof.
  intros Hb Hh w out. unfold try_except. rewrite (Hb w out).
  destruct (body (with_stdout [] w)) as [[a | e | n] w1]; simpl; try reflexivity.
  rewrite (Hh e w1 (out ++ stdout w1)), (framed_at (handler e) w1 (Hh e)).
  destruct (handler e (with_stdout [] w1)) as [r w2]. unfold with_stdout; simpl.
  rewrite app_assoc. reflexivity.
Qed.

Lemma framed_if {A : Type} (b : bool) (c1 c2 : M World A) :
  framed c1 -> framed c2 -> framed (if b then c1 else c2).
Proof. destruct b; auto. Qed.

Create HintDb frame.
#[local] Hint Resolve framed_ret framed_call framed_print framed_engine_state_update
  framed_invoke framed_bind framed_try_except framed_if : frame.

Lemma framed_try_body (line : string) : framed (try_body line).
Proof.
  unfold try_body, engine_goto, engine_choose, engine_current.
  repeat first
    [ apply framed_bind; [| intros ?; cbv beta]
    | apply framed_try_except; [| intros ?; cbv beta]
    | apply framed_if
    | solve [auto with frame] ].
Qed.

Lemma framed_handle_line (line : string) : framed (handle_line line).
Proof.
  unfold handle_line. apply framed_try_except; [apply framed_try_body |].
  intros e. destruct (is_JSONDecodeError e); auto 6 with frame.
Qed.

(** What the handler writes is its [response], after what was there. *)
Lemma handle_line_response (line : string) (w : World) :
  handle_line line w
  = (fst (handle_line line (with_stdout [] w)),
     with_stdout (stdout w ++ response line w) (snd (handle_line line (with_stdout [] w)))).
Proof.
  rewrite (framed_at _ w (framed_handle_line line)). unfold response.
  destruct (handle_line line (with_stdout [] w)); reflexivity.
Qed.

(** *** One line, one response *)

Lemma handle_line_exit (line : string) (w : World) :
  is_exit_command line = true -> handle_line line w = (Returns LoopBreak, w).
Proof.
  unfold is_exit_command. intros H.
  destruct (json_loads line) as [[| | | | | | d] | e] eqn:Hl; try discriminate.
  apply eq_str_true in H.
  unfold_handler. rewrite Hl, H. reflexivity.
Qed.

Lemma handle_line_one (line : string) (w : World) :
  is_exit_command line = false ->
  exists r eng cs,
    handle_line line w
    = (Returns LoopNext, {| engine := eng; stdout := stdout w ++ [r]; calls := cs |}).
Proof.
  unfold is_exit_command. intros H. unfold_handler.
  destruct (json_loads line) as [v | e] eqn:Hl.
  - destruct v; simpl; try (do 3 eexists; reflexivity).
    rewrite H. repeat (branch; simpl); do 3 eexists; reflexivity.
  - destruct (is_JSONDecodeError e); do 3 eexists; reflexivity.
Qed.

Lemma handle_line_returns (line : string) (w : World) :
  exists c w', handle_line line w = (Returns c, w').
Proof.
  destruct (is_exit_command line) eqn:E.
  - do 2 eexists. apply handle_line_exit. exact E.
  - destruct (handle_line_one line w E) as (r & eng & cs & H).
    do 2 eexists. exact H.
Qed.

(** The exceptions that leave the body of the [try]: the decoder's,
    the [AttributeError] of [get] on a value that is not a [dict], and
    what [update] raises.  Those of the engine's methods do not. *)
Lemma try_body_raises (line : string) (w w1 : World) (e : exn) :
  try_body line w = (Raises e, w1) ->
  (json_loads line = Err e /\ w1 = w)
  \/ (exists v, json_loads line = Ok v /\ Py.get v "type" JNull = Err e /\ w1 = w)
  \/ (exists d st,
        json_loads line = Ok (JObj d)
        /\ dict_get d "type" JNull = JStr "preview"
        /\ truthy (dict_get d "passage" JNull) = true
        /\ update (state (engine w)) (dict_get d "state" (JObj [])) = (st, Some e)
        /\ w1 = {| engine := {| state := st; core := core (engine w) |};
                   stdout := stdout w; calls := calls w |}).
Proof.
  unfold try_body, try_except, bind, call, ret,
    print, engine_state_update, engine_goto, engine_choose, engine_current, invoke.
  destruct (json_loads line) as [v | e0] eqn:Hl.
  - destruct v as [| b | z | f | s | items | d]; simpl;
      try (intros H; injection H as <- <-; right; left; eexists; repeat split; reflexivity).
    destruct (eq_str (dict_get d "type" JNull) "preview") eqn:Ht.
    + apply eq_str_true in Ht.
      destruct (truthy (dict_get d "passage" JNull)) eqn:Htr; simpl;
        [| discriminate].
      destruct (update (state (engine w)) (dict_get d "state" (JObj [])))
        as [st [e1 |]] eqn:Hu; simpl.
      * intros H; injection H as <- <-. right; right. exists d, st. auto.
      * repeat (branch; simpl); discriminate.
    + repeat (branch; simpl); discriminate.
  - intros H; injection H as <- <-. left. auto.
Qed.

(** An iteration that ends in [LoopNext] hands its world to the next
    one; one that ends in [LoopBreak] leaves the rest of the input
    unread. *)
Lemma command_loop_next (line : string) (rest : list read_event) (w w' : World) :
  line <> "" ->
  handle_line line w = (Returns LoopNext, w') ->
  command_loop (Line line :: rest) w = command_loop rest w'.
Proof.
  intros Hne H. simpl. apply String.eqb_neq in Hne. rewrite Hne, H. reflexivity.
Qed.

Lemma command_loop_break (line : string) (rest : list read_event) (w w' : World) :
  line <> "" ->
  handle_line line w = (Returns LoopBreak, w') ->
  command_loop (Line line :: rest) w = (Returns tt, w', rest).
Proof.
  intros Hne H. simpl. apply String.eqb_neq in Hne. rewrite Hne, H. reflexivity.
Qed.

(** Every line of a response is an error record or a serialized
    output of the engine. *)
Lemma response_kinds (line : string) (w : World) (r : json) :
  In r (response line w) ->
  (exists tag more, r = JObj (("error", JStr tag) :: more))
  \/ (exists o, r = serialize_output o).
Proof.
  unfold response. unfold_handler.
  destruct (json_loads line) as [v | e] eqn:Hl.
  - destruct v; simpl;
      try (intros [<- | []]; left; do 2 eexists; reflexivity).
    repeat (branch; simpl); intros Hin;
      first [ contradiction
            | destruct Hin as [<- | []];
              solve [left; do 2 eexists; reflexivity | right; eexists; reflexivity] ].
  - destruct (is_JSONDecodeError e); simpl;
      intros [<- | []]; left; do 2 eexists; reflexivity.
Qed.

(** *** The loop and the process *)

(** A run of commands, none of them [exit], is read to its end: the
    loop then stands before what follows, one line written for each. *)
Lemma command_loop_commands (pre : list read_event) :
  forall w : World,
    forallb is_command pre = true ->
    exists w' : World,
      (forall post, command_loop (pre ++ post) w = command_loop post w')
      /\ length (stdout w') = (length (stdout w) + length pre)%nat.
Proof.
  induction pre as [| ev pre IH]; intros w Hpre.
  - exists w. split; [reflexivity | simpl; lia].
  - simpl in Hpre. apply andb_true_iff in Hpre as [Hev Hpre].
    destruct ev as [line | e]; [| discriminate].
    simpl in Hev. apply andb_true_iff in Hev as [Hne Hx].
    apply negb_true_iff in Hne, Hx.
    destruct (handle_line_one line w Hx) as (r & eng & cs & H).
    destruct (IH {| engine := eng; stdout := stdout w ++ [r]; calls := cs |} Hpre)
      as (w' & Hloop & Hlen).
    exists w'. split.
    + intros post. simpl. rewrite Hne, H. apply Hloop.
    + rewrite Hlen. simpl. rewrite length_app. simpl. lia.
Qed.

(** Whatever the lines say, the loop ends by returning. *)
Lemma command_loop_lines (cmds : list read_event) :
  forall w : World,
    Forall (fun ev => exists line, ev = Line line) cmds ->
    exists w' rest, command_loop cmds w = (Returns tt, w', rest).
Proof.
  induction cmds as [| ev cmds IH]; intros w Hall.
  - do 2 eexists. reflexivity.
  - inversion Hall as [| ? ? [line ->] Hall']; subst. simpl.
    destruct (String.eqb line ""); [do 2 eexists; reflexivity |].
    destruct (handle_line_returns line w) as (c & w' & H). rewrite H.
    destruct c; [apply IH; assumption | do 2 eexists; reflexivity].
Qed.

(** After a story that the decoder and the engine accept, [main] is the
    loop run from the ready signal. *)
Lemma main_started (story : string) (sd : json) (eng : Engine EngineCore)
    (cmds : list read_event) :
  story <> "" ->
  json_loads story = Ok sd ->
  BardEngine sd = Ok eng ->
  main_body (Line story :: cmds)
  = let '(r, w, rest) :=
      command_loop cmds {| engine := eng; stdout := [ready]; calls := [] |} in
    (r, stdout w, rest, Some (engine w), calls w).
Proof.
  intros Hne Hl Hb. unfold main_body. apply String.eqb_neq in Hne.
  rewrite Hne, Hl, Hb. reflexivity.
Qed.

(* --------------------------------------------------------------------- *)
(** *** The properties of the specification *)
(* --------------------------------------------------------------------- *)

(** C2: [serialize_output] builds exactly the four members [content],
    [choices], [passage_id], [has_choices]; [choices] is the engine's
    list itself, so in the engine's order and complete; [has_choices]
    is true exactly when that list has an element.  Every line the
    handler writes that is not an error record is such a record. *)
Theorem serialize_output_faithful :
  (forall o : PassageOutput,
      exists b : bool,
        serialize_output o
        = JObj [("content", JStr (content o)); ("choices", JArr (choices o));
                ("passage_id", JStr (passage_id o)); ("has_choices", JBool b)]
        /\ (b = true <-> (length (choices o) > 0)%nat))
  /\ (forall (line : string) (w : World) (r : json),
        In r (response line w) ->
        (exists tag more, r = JObj (("error", JStr tag) :: more))
        \/ (exists (o : PassageOutput) (b : bool),
              r = JObj [("content", JStr (content o)); ("choices", JArr (choices o));
                        ("passage_id", JStr (passage_id o)); ("has_choices", JBool b)]
              /\ (b = true <-> (length (choices o) > 0)%nat))).
Proof.
  assert (shape : forall o : PassageOutput,
      exists b : bool,
        serialize_output o
        = JObj [("content", JStr (content o)); ("choices", JArr (choices o));
                ("passage_id", JStr (passage_id o)); ("has_choices", JBool b)]
        /\ (b = true <-> (length (choices o) > 0)%nat)).
  { intros o. exists (0 <? length (choices o))%nat. split; [reflexivity |].
    rewrite Nat.ltb_lt. unfold gt. tauto. }
  split; [exact shape |].
  intros line w r Hin. destruct (response_kinds line w r Hin) as [He | [o ->]].
  - left. exact He.
  - right. destruct (shape o) as [b Hb]. exists o, b. exact Hb.
Qed.

(** C4: a choice command without an index, or with [null] for it, gets
    the one record [{"error": "Missing choice index"}]; the engine, its
    state and the trace of engine calls are what they were (whatever
    [choose] would do), and the loop goes on to the next line. *)
Theorem choice_without_index
    (w : World) (line : string) (d : list (string * json)) (rest : list read_event) :
  line <> "" ->
  json_loads line = Ok (JObj d) ->
  lookup "type" d = Some (JStr "choice") ->
  lookup "index" d = None \/ lookup "index" d = Some JNull ->
  let w' := emit (JObj [("error", JStr "Missing choice index")]) w in
  handle_line line w = (Returns LoopNext, w')
  /\ stdout w' = stdout w ++ [JObj [("error", JStr "Missing choice index")]]
  /\ engine w' = engine w
  /\ calls w' = calls w
  /\ command_loop (Line line :: rest) w = command_loop rest w'.
Proof.
  intros Hne Hl Ht Hi w'.
  assert (H : handle_line line w = (Returns LoopNext, w')).
  { unfold_handler. rewrite Hl. unfold dict_get. rewrite Ht. simpl.
    destruct Hi as [-> | ->]; reflexivity. }
  repeat split; try assumption. now apply command_loop_next.
Qed.

(** C5: a preview command whose passage is missing or falsy gets the
    one record [{"error": "Missing passage ID"}]; the engine is what it
    was, so no overlay was merged into its state, and no method of it
    was called; the loop goes on. *)
Theorem preview_without_passage
    (w : World) (line : string) (d : list (string * json)) (rest : list read_event) :
  line <> "" ->
  json_loads line = Ok (JObj d) ->
  lookup "type" d = Some (JStr "preview") ->
  lookup "passage" d = None
  \/ (exists p, lookup "passage" d = Some p /\ truthy p = false) ->
  let w' := emit (JObj [("error", JStr "Missing passage ID")]) w in
  handle_line line w = (Returns LoopNext, w')
  /\ stdout w' = stdout w ++ [JObj [("error", JStr "Missing passage ID")]]
  /\ engine w' = engine w
  /\ state (engine w') = state (engine w)
  /\ calls w' = calls w
  /\ command_loop (Line line :: rest) w = command_loop rest w'.
Proof.
  intros Hne Hl Ht Hp w'.
  assert (H : handle_line line w = (Returns LoopNext, w')).
  { unfold_handler. rewrite Hl. unfold dict_get. rewrite Ht. simpl.
    destruct Hp as [-> | [p [-> Hp]]]; [| rewrite Hp]; reflexivity. }
  repeat split; try assumption. now apply command_loop_next.
Qed.

(** C6: when the input ends before a first line, the process writes
    [{"error": "No story data provided"}] and nothing else, in
    particular not the ready signal, and exits with status 1. *)
Theorem no_story_data :
  output (main []) = [JObj [("error", JStr "No story data provided")]]
  /\ exit_status (main []) = 1%Z
  /\ exit_status (main []) <> 0%Z
  /\ ~ In ready (output (main []))
  /\ final_engine (main []) = None.
Proof.
  repeat split; simpl; try discriminate.
  intros [H | []]. discriminate H.
Qed.

(** C7: a line that decodes to an object whose [type] is none of
    [preview], [choice], [current], [exit] gets the one record
    [{"error": "Unknown command type", "type": <value>}], the value
    being [null] when the member is absent; the engine is untouched and
    the loop goes on. *)
Theorem unknown_command_type
    (w : World) (line : string) (d : list (string * json)) (rest : list read_event) :
  line <> "" ->
  json_loads line = Ok (JObj d) ->
  let value := match lookup "type" d with Some v => v | None => JNull end in
  value <> JStr "preview" -> value <> JStr "choice" ->
  value <> JStr "current" -> value <> JStr "exit" ->
  let w' := emit (JObj [("error", JStr "Unknown command type"); ("type", value)]) w in
  handle_line line w = (Returns LoopNext, w')
  /\ stdout w'
     = stdout w ++ [JObj [("error", JStr "Unknown command type"); ("type", value)]]
  /\ engine w' = engine w
  /\ calls w' = calls w
  /\ command_loop (Line line :: rest) w = command_loop rest w'.
Proof.
  intros Hne Hl value H1 H2 H3 H4 w'.
  assert (H : handle_line line w = (Returns LoopNext, w')).
  { unfold_handler. rewrite Hl. unfold dict_get. fold value.
    apply eq_str_false in H1, H2, H3, H4. simpl. rewrite H1, H2, H3, H4. reflexivity. }
  repeat split; try assumption. now apply command_loop_next.
Qed.

(** C8: a line that the decoder rejects gets the one record
    [{"error": "Invalid JSON", "message": <text>}]; the loop goes on
    with the engine untouched, and any next line is handled as it
    would have been without the bad one: same control, same effect on
    the engine, same response, written after the error record. *)
Theorem invalid_json_line
    (w : World) (line : string) (e : exn) (rest : list read_event) :
  line <> "" ->
  json_loads line = Err e ->
  is_JSONDecodeError e = true ->
  let r := JObj [("error", JStr "Invalid JSON"); ("message", JStr (str e))] in
  let w' := emit r w in
  handle_line line w = (Returns LoopNext, w')
  /\ stdout w' = stdout w ++ [r]
  /\ engine w' = engine w
  /\ calls w' = calls w
  /\ command_loop (Line line :: rest) w = command_loop rest w'
  /\ (forall next : string,
        fst (handle_line next w') = fst (handle_line next w)
        /\ engine (snd (handle_line next w')) = engine (snd (handle_line next w))
        /\ calls (snd (handle_line next w')) = calls (snd (handle_line next w))
        /\ stdout (snd (handle_line next w)) = stdout w ++ response next w
        /\ stdout (snd (handle_line next w')) = stdout w ++ [r] ++ response next w).
Proof.
  intros Hne Hl He r w'.
  assert (H : handle_line line w = (Returns LoopNext, w')).
  { unfold_handler. rewrite Hl, He. reflexivity. }
  split; [exact H |]. do 3 (split; [reflexivity |]).
  split; [now apply command_loop_next |].
  intros next.
  rewrite (handle_line_response next w'), (handle_line_response next w). simpl.
  repeat split. rewrite <- app_assoc. reflexivity.
Qed.

(** C3: for a preview command with a passage and an overlay object
    (a dict, so with each key once), [merged] is the engine's state
    after the merge.  Every key of the overlay reads as the overlay's
    value in it, every other key as before.  [goto] is called on the engine holding [merged], and the
    engine that call leaves is the engine of the following commands,
    whether the call returned or raised: nothing restores the state.
    In particular when [goto] raises and leaves the engine alone, the
    state stays [merged]. *)
Theorem overlay_merged_before_goto
    (w : World) (line : string) (d overlay : list (string * json))
    (passage : json) (rest : list read_event) :
  line <> "" ->
  json_loads line = Ok (JObj d) ->
  lookup "type" d = Some (JStr "preview") ->
  lookup "passage" d = Some passage ->
  truthy passage = true ->
  lookup "state" d = Some (JObj overlay) ->
  NoDup (keys overlay) ->
  let merged := merge overlay (state (engine w)) in
  let eng1 := {| state := merged; core := core (engine w) |} in
  let r := match fst (goto passage eng1) with
           | Ok o => serialize_output o
           | Err e => JObj [("error", JStr "Engine error"); ("message", JStr (str e))]
           end in
  let w' := {| engine := snd (goto passage eng1);
               stdout := stdout w ++ [r];
               calls := calls w ++ [CallGoto passage] |} in
  (forall k v, lookup k overlay = Some v -> getitem (KStr k) merged = Some v)
  /\ (forall key : pykey,
        (forall k, In k (keys overlay) -> key <> KStr k) ->
        getitem key merged = getitem key (state (engine w)))
  /\ handle_line line w = (Returns LoopNext, w')
  /\ command_loop (Line line :: rest) w = command_loop rest w'
  /\ (forall e, goto passage eng1 = (Err e, eng1) -> state (engine w') = merged).
Proof.
  intros Hne Hl Ht Hp Htr Hs Hnd merged eng1 r w'.
  assert (H : handle_line line w = (Returns LoopNext, w')).
  { unfold_handler. rewrite Hl. unfold dict_get. rewrite Ht, Hp, Hs. simpl.
    rewrite Htr. simpl. subst w' r. fold merged. fold eng1.
    destruct (goto passage eng1) as [[o | e] eng2]; reflexivity. }
  split; [| split; [| split; [exact H | split]]].
  - intros k v Hk. apply getitem_merge_key; assumption.
  - intros key Hkey. apply getitem_merge_other.
    intros s Hin. destruct (key_eqb (KStr s) key) eqn:E; [| reflexivity].
    apply key_eqb_str_inv in E. exfalso. apply (Hkey s Hin). exact E.
  - now apply command_loop_next.
  - intros e He. subst w'. simpl. rewrite He. reflexivity.
Qed.

(** C1: when the engine method a command calls raises, the handler
    writes exactly one record, [{"error": "Engine error", "message":
    str(e)}] for [preview] and [current] and [{"error": "Choice error",
    "message": str(e)}] for [choice], and the loop goes on to the next
    line with the engine as the failed call left it.  Whatever the
    engine's methods do, the loop over lines that were read ends by
    returning, never by an exception or an exit. *)
Theorem engine_failure_reported
    (w : World) (line : string) (d : list (string * json)) (rest : list read_event) :
  line <> "" ->
  json_loads line = Ok (JObj d) ->
  (forall (passage : json) (st : pydict) (e : exn) (eng' : Engine EngineCore),
      lookup "type" d = Some (JStr "preview") ->
      lookup "passage" d = Some passage ->
      truthy passage = true ->
      update (state (engine w)) (dict_get d "state" (JObj [])) = (st, None) ->
      goto passage {| state := st; core := core (engine w) |} = (Err e, eng') ->
      let w' := {| engine := eng';
                   stdout := stdout w ++ [JObj [("error", JStr "Engine error");
                                                ("message", JStr (str e))]];
                   calls := calls w ++ [CallGoto passage] |} in
      handle_line line w = (Returns LoopNext, w')
      /\ command_loop (Line line :: rest) w = command_loop rest w')
  /\ (forall (index : json) (e : exn) (eng' : Engine EngineCore),
        lookup "type" d = Some (JStr "choice") ->
        lookup "index" d = Some index ->
        index <> JNull ->
        choose index (engine w) = (Err e, eng') ->
        let w' := {| engine := eng';
                     stdout := stdout w ++ [JObj [("error", JStr "Choice error");
                                                  ("message", JStr (str e))]];
                     calls := calls w ++ [CallChoose index] |} in
        handle_line line w = (Returns LoopNext, w')
        /\ command_loop (Line line :: rest) w = command_loop rest w')
  /\ (forall (e : exn) (eng' : Engine EngineCore),
        lookup "type" d = Some (JStr "current") ->
        current (engine w) = (Err e, eng') ->
        let w' := {| engine := eng';
                     stdout := stdout w ++ [JObj [("error", JStr "Engine error");
                                                  ("message", JStr (str e))]];
                     calls := calls w ++ [CallCurrent] |} in
        handle_line line w = (Returns LoopNext, w')
        /\ command_loop (Line line :: rest) w = command_loop rest w')
  /\ (forall cmds : list read_event,
        Forall (fun ev => exists l, ev = Line l) cmds ->
        exists w' rest', command_loop cmds w = (Returns tt, w', rest')).
Proof.
  intros Hne Hl. split; [| split; [| split]];
    [| | | intros cmds Hall; apply command_loop_lines; exact Hall].
  - intros passage st e eng' Ht Hp Htr Hu Hg w'.
    assert (H : handle_line line w = (Returns LoopNext, w')).
    { assert (Ht' : dict_get d "type" JNull = JStr "preview")
        by (unfold dict_get; rewrite Ht; reflexivity).
      assert (Hp' : dict_get d "passage" JNull = passage)
        by (unfold dict_get; rewrite Hp; reflexivity).
      unfold_handler. rewrite Hl. simpl. rewrite Ht'. simpl. rewrite Hp', Htr. simpl.
      rewrite Hu. simpl. rewrite Hg. reflexivity. }
    split; [exact H | now apply command_loop_next].
  - intros index e eng' Ht Hi Hn Hc w'.
    assert (H : handle_line line w = (Returns LoopNext, w')).
    { unfold_handler. rewrite Hl. unfold dict_get. rewrite Ht, Hi. simpl.
      destruct index; try contradiction; simpl; rewrite Hc; reflexivity. }
    split; [exact H | now apply command_loop_next].
  - intros e eng' Ht Hc w'.
    assert (H : handle_line line w = (Returns LoopNext, w')).
    { unfold_handler. rewrite Hl. unfold dict_get. rewrite Ht. simpl.
      rewrite Hc. reflexivity. }
    split; [exact H | now apply command_loop_next].
Qed.

(** C9: after the ready signal and a run [pre] of commands other than
    [exit], the end of input ends the process with status 0, one line
    having been written for each command.  An [exit] command at that
    point ends it with status 0 as well, with the same output (no line
    for [exit]) and the rest of the input unread.  At the level of one
    line: a line that is not an [exit] command gets exactly one line of
    response, an [exit] command none. *)
Theorem exit_and_end_of_input
    (story : string) (sd : json) (eng : Engine EngineCore) (pre : list read_event) :
  story <> "" ->
  json_loads story = Ok sd ->
  BardEngine sd = Ok eng ->
  forallb is_command pre = true ->
  let p := main (Line story :: pre) in
  exit_status p = 0%Z
  /\ unread p = []
  /\ length (output p) = S (length pre)
  /\ (forall (line : string) (d : list (string * json)) (rest : list read_event),
        line <> "" ->
        json_loads line = Ok (JObj d) ->
        lookup "type" d = Some (JStr "exit") ->
        let q := main (Line story :: pre ++ Line line :: rest) in
        exit_status q = 0%Z
        /\ output q = output p
        /\ unread q = rest
        /\ final_engine q = final_engine p
        /\ engine_calls q = engine_calls p)
  /\ (forall (line : string) (d : list (string * json)) (w : World)
             (rest : list read_event),
        line <> "" ->
        json_loads line = Ok (JObj d) ->
        lookup "type" d = Some (JStr "exit") ->
        handle_line line w = (Returns LoopBreak, w)
        /\ command_loop (Line line :: rest) w = (Returns tt, w, rest))
  /\ (forall (line : string) (w : World),
        is_exit_command line = false ->
        exists r eng' cs,
          handle_line line w
          = (Returns LoopNext,
             {| engine := eng'; stdout := stdout w ++ [r]; calls := cs |})).
Proof.
  intros Hne Hl Hb Hpre p.
  assert (Hexit : forall line d, json_loads line = Ok (JObj d) ->
                    lookup "type" d = Some (JStr "exit") ->
                    is_exit_command line = true).
  { intros line d Hd Ht. unfold is_exit_command, dict_get. rewrite Hd, Ht. reflexivity. }
  destruct (command_loop_commands pre
              {| engine := eng; stdout := [ready]; calls := [] |} Hpre)
    as (w' & Hloop & Hlen).
  assert (Hp : p = {| exit_status := 0; output := stdout w'; unread := [];
                      final_engine := Some (engine w'); engine_calls := calls w' |}).
  { subst p. unfold main. rewrite (main_started story sd eng pre Hne Hl Hb).
    rewrite <- (app_nil_r pre), Hloop. reflexivity. }
  rewrite Hp. simpl.
  split; [reflexivity |]. split; [reflexivity |].
  split; [rewrite Hlen; reflexivity |].
  split; [| split].
  - intros line d rest Hn Hd Ht.
    assert (Hq : main (Line story :: pre ++ Line line :: rest)
                 = {| exit_status := 0; output := stdout w'; unread := rest;
                      final_engine := Some (engine w');
                      engine_calls := calls w' |}).
    { unfold main.
      rewrite (main_started story sd eng (pre ++ Line line :: rest) Hne Hl Hb), Hloop.
      rewrite (command_loop_break line rest w' w' Hn);
        [reflexivity | apply handle_line_exit; eauto]. }
    rewrite Hq. simpl. auto.
  - intros line d w rest Hn Hd Ht.
    assert (H : handle_line line w = (Returns LoopBreak, w))
      by (apply handle_line_exit; eauto).
    split; [exact H | now apply command_loop_break].
  - intros line w He. apply handle_line_one. exact He.
Qed.

(** C10: an exception that leaves the body of the [try] and is not a
    decoding error is caught by the last clause: the handler writes
    [{"error": "Unexpected error", "message": str(e)}], returns, and
    the loop goes on.  A decoded value that is not an object raises
    such an exception when its [type] is asked for; so does a preview
    command whose [state] value makes [update] raise, in which case no
    method of the engine is called.  No other exception leaves the
    body, the handler never raises, and a process whose reads succeed
    ends with status 0 once it has started. *)
Theorem unexpected_error_caught
    (w : World) (line : string) (rest : list read_event) :
  line <> "" ->
  (forall (e : exn) (w1 : World),
      try_body line w = (Raises e, w1) ->
      is_JSONDecodeError e = false ->
      let w' := emit (JObj [("error", JStr "Unexpected error");
                            ("message", JStr (str e))]) w1 in
      handle_line line w = (Returns LoopNext, w')
      /\ command_loop (Line line :: rest) w = command_loop rest w')
  /\ (forall v : json,
        json_loads line = Ok v ->
        (forall d, v <> JObj d) ->
        exists e : exn,
          Py.get v "type" JNull = Err e
          /\ exn_class e = AttributeError
          /\ let w' := emit (JObj [("error", JStr "Unexpected error");
                                   ("message", JStr (str e))]) w in
             handle_line line w = (Returns LoopNext, w')
             /\ command_loop (Line line :: rest) w = command_loop rest w')
  /\ (forall (d : list (string * json)) (passage : json) (st : pydict) (e : exn),
        json_loads line = Ok (JObj d) ->
        lookup "type" d = Some (JStr "preview") ->
        lookup "passage" d = Some passage ->
        truthy passage = true ->
        update (state (engine w)) (dict_get d "state" (JObj [])) = (st, Some e) ->
        let w' := {| engine := {| state := st; core := core (engine w) |};
                     stdout := stdout w ++ [JObj [("error", JStr "Unexpected error");
                                                  ("message", JStr (str e))]];
                     calls := calls w |} in
        handle_line line w = (Returns LoopNext, w')
        /\ command_loop (Line line :: rest) w = command_loop rest w')
  /\ (forall (st : pydict) (v : json),
        elements v = None -> exists e, update st v = (st, Some e))
  /\ (forall (e : exn) (w1 : World),
        try_body line w = (Raises e, w1) ->
        json_loads line = Err e
        \/ (exists v, json_loads line = Ok v /\ Py.get v "type" JNull = Err e)
        \/ (exists d st,
              json_loads line = Ok (JObj d)
              /\ update (state (engine w)) (dict_get d "state" (JObj [])) = (st, Some e)))
  /\ (exists c w', handle_line line w = (Returns c, w'))
  /\ (forall (story : string) (sd : json) (eng : Engine EngineCore)
             (cmds : list read_event),
        story <> "" ->
        json_loads story = Ok sd ->
        BardEngine sd = Ok eng ->
        Forall (fun ev => exists l, ev = Line l) cmds ->
        exit_status (main (Line story :: cmds)) = 0%Z
        /\ fst (fst (fst (fst (main_body (Line story :: cmds))))) = Returns tt).
Proof.
  intros Hne.
  assert (caught : forall (e : exn) (w1 : World),
      try_body line w = (Raises e, w1) ->
      is_JSONDecodeError e = false ->
      let w' := emit (JObj [("error", JStr "Unexpected error");
                            ("message", JStr (str e))]) w1 in
      handle_line line w = (Returns LoopNext, w')
      /\ command_loop (Line line :: rest) w = command_loop rest w').
  { intros e w1 Hb He w'.
    assert (H : handle_line line w = (Returns LoopNext, w')).
    { unfold handle_line, try_except. rewrite Hb, He. reflexivity. }
    split; [exact H | now apply command_loop_next]. }
  split; [exact caught |].
  split; [| split; [| split; [| split; [| split]]]].
  - intros v Hl Hv.
    assert (Hg : exists e, Py.get v "type" JNull = Err e /\ exn_class e = AttributeError).
    { destruct v; try (eexists; split; reflexivity). exfalso. eapply Hv. reflexivity. }
    destruct Hg as (e & Hg & Hc). exists e. split; [exact Hg | split; [exact Hc |]].
    apply caught.
    + unfold try_body, bind, call. rewrite Hl, Hg. reflexivity.
    + unfold is_JSONDecodeError. rewrite Hc. reflexivity.
  - intros d passage st e Hl Ht Hp Htr Hu w'.
    assert (Ht' : dict_get d "type" JNull = JStr "preview")
      by (unfold dict_get; rewrite Ht; reflexivity).
    assert (Hp' : dict_get d "passage" JNull = passage)
      by (unfold dict_get; rewrite Hp; reflexivity).
    apply (caught e {| engine := {| state := st; core := core (engine w) |};
                       stdout := stdout w; calls := calls w |}).
    + unfold try_body, bind, call, engine_state_update, Py.get.
      rewrite Hl. simpl. rewrite Ht'. simpl. rewrite Hp', Htr. simpl.
      rewrite Hu. reflexivity.
    + exact (update_error _ _ _ _ Hu).
  - intros st v Hv. eexists. apply update_not_iterable. exact Hv.
  - intros e w1 Hb. destruct (try_body_raises line w w1 e Hb)
      as [[H _] | [(v & H1 & H2 & _) | (d & st & H1 & _ & _ & H2 & _)]]; eauto 8.
  - apply handle_line_returns.
  - intros story sd eng cmds Hs Hl Hb Hall.
    destruct (command_loop_lines cmds {| engine := eng; stdout := [ready]; calls := [] |}
                Hall) as (w' & u & Hloop).
    unfold main. rewrite (main_started story sd eng cmds Hs Hl Hb), Hloop.
    split; reflexivity.
Qed.

(* --------------------------------------------------------------------- *)
(** *** What a line and a run of lines do to the world *)
(* --------------------------------------------------------------------- *)

(** Every line of a response is a serialized output or an error
    record with one of the tags the loop goes on after. *)
Lemma response_tags (line : string) (w : World) (r : json) :
  In r (response line w) -> is_response r.
Proof.
  unfold response, is_response. unfold_handler.
  destruct (json_loads line) as [v | e] eqn:Hl.
  - destruct v as [| b | z | f | s | items | d]; simpl;
      try (intros [<- | []]; right; eexists; split; [reflexivity | simpl; tauto]).
    repeat (branch; simpl); intros Hin;
      first [ contradiction
            | destruct Hin as [<- | []];
              solve [ left; eexists; reflexivity
                    | right; eexists; split; [reflexivity | simpl; tauto] ] ].
  - destruct (is_JSONDecodeError e); simpl;
      intros [<- | []]; right; eexists; split; try reflexivity; simpl; tauto.
Qed.

(** A line makes at most one call of an engine method; when it makes
    none, the engine's core is left alone. *)
Lemma handle_line_calls (line : string) (w : World) :
  exists cs : list engine_call,
    calls (snd (handle_line line w)) = calls w ++ cs
    /\ (length cs <= 1)%nat
    /\ (cs = [] -> core (engine (snd (handle_line line w))) = core (engine w)).
Proof.
  unfold_handler.
  destruct (json_loads line) as [v | e] eqn:Hl.
  - destruct v as [| b | z | f | s | items | d]; simpl;
      try (exists []; rewrite app_nil_r; repeat split; simpl; lia).
    repeat (branch; simpl);
      first [ exists []; rewrite app_nil_r; repeat split; simpl; lia
            | eexists [_]; split; [reflexivity | split; [simpl; lia | discriminate]] ].
  - destruct (is_JSONDecodeError e); simpl;
      exists []; rewrite app_nil_r; repeat split; simpl; lia.
Qed.

(** The loop ends by returning or on a failed read; it only appends
    responses to standard output and calls to the trace, at most one
    of each for each input event. *)
Lemma command_loop_effect (cmds : list read_event) :
  forall (w w' : World) (r : outcome unit) (u : list read_event),
    command_loop cmds w = (r, w', u) ->
    (r = Returns tt \/ exists e, r = Raises e)
    /\ exists new cs,
        stdout w' = stdout w ++ new
        /\ Forall is_response new
        /\ (length new <= length cmds)%nat
        /\ calls w' = calls w ++ cs
        /\ (length cs <= length cmds)%nat.
Proof.
  induction cmds as [| ev cmds IH]; intros w w' r u H; simpl in H.
  - injection H as <- <- <-. split; [left; reflexivity |].
    exists [], []. rewrite !app_nil_r. repeat split; auto.
  - destruct ev as [line | e].
    + destruct (String.eqb line "").
      { injection H as <- <- <-. split; [left; reflexivity |].
        exists [], []. rewrite !app_nil_r. repeat split; simpl; auto; lia. }
      destruct (handle_line_returns line w) as (c & w1 & H1).
      destruct (handle_line_calls line w) as (cs1 & Hc1 & Hl1 & _).
      rewrite H1 in Hc1. simpl in Hc1.
      assert (Hs1 : stdout w1 = stdout w ++ response line w).
      { pose proof (handle_line_response line w) as Hr. rewrite H1 in Hr.
        injection Hr as _ ->. reflexivity. }
      assert (Hn1 : (length (response line w) <= 1)%nat).
      { destruct (is_exit_command line) eqn:E.
        - pose proof (handle_line_exit line w E) as Hx. rewrite H1 in Hx.
          injection Hx as _ ->. 
          assert (Hnil : stdout w ++ response line w = stdout w ++ []).
          { rewrite <- Hs1, app_nil_r. reflexivity. }
          apply app_inv_head in Hnil. rewrite Hnil. simpl. lia.
        - destruct (handle_line_one line w E) as (r1 & e1 & c1 & Ho).
          rewrite H1 in Ho. injection Ho as _ ->. simpl in Hs1.
          apply app_inv_head in Hs1. rewrite <- Hs1. simpl. lia. }
      assert (Hf1 : Forall is_response (response line w)).
      { apply Forall_forall. intros x Hx. exact (response_tags line w x Hx). }
      rewrite H1 in H. destruct c.
      * destruct (IH _ _ _ _ H) as (Hr & new & cs & Hs & Hf & Hn & Hc & Hl).
        split; [exact Hr |].
        exists (response line w ++ new), (cs1 ++ cs).
        rewrite Hs, Hs1, Hc, Hc1, !app_assoc, !length_app.
        repeat split; auto; [apply Forall_app; auto | simpl; lia | simpl; lia].
      * injection H as <- <- <-. split; [left; reflexivity |].
        exists (response line w), cs1. repeat split; auto; simpl; lia.
    + injection H as <- <- <-. split; [right; eexists; reflexivity |].
      exists [], []. rewrite !app_nil_r. repeat split; simpl; auto; lia.
Qed.

(** The two ways a run of [main] goes: it ends before an engine
    exists, with one line carrying a fatal tag and status 1; or it
    starts, and what it leaves is what the loop leaves, with a last
    [Fatal error] line and status 1 when a read failed. *)
Lemma main_shape (stdin : list read_event) :
  (exists r t,
      error_tag r = Some t /\ In t fatal_tags
      /\ main stdin = {| exit_status := 1; output := [r]; unread := tl stdin;
                         final_engine := None; engine_calls := [] |})
  \/ (exists story sd eng rest r w' u,
        stdin = Line story :: rest
        /\ story <> ""
        /\ json_loads story = Ok sd
        /\ BardEngine sd = Ok eng
        /\ command_loop rest {| engine := eng; stdout := [ready]; calls := [] |}
           = (r, w', u)
        /\ ((r = Returns tt
             /\ main stdin = {| exit_status := 0; output := stdout w'; unread := u;
                                final_engine := Some (engine w');
                                engine_calls := calls w' |})
            \/ (exists e,
                  r = Raises e
                  /\ main stdin
                     = {| exit_status := 1;
                          output := stdout w' ++ [JObj [("error", JStr "Fatal error");
                                                        ("message", JStr (str e))]];
                          unread := u; final_engine := Some (engine w');
                          engine_calls := calls w' |}))).
Proof.
  destruct stdin as [| [story | e] rest].
  - left. do 2 eexists. split; [| split; [| reflexivity]]; [reflexivity | simpl; tauto].
  - destruct (String.eqb story "") eqn:Hne.
    { left. unfold main, main_body. rewrite Hne.
      do 2 eexists. split; [| split; [| reflexivity]]; [reflexivity | simpl; tauto]. }
    apply String.eqb_neq in Hne.
    destruct (json_loads story) as [sd | e] eqn:Hl.
    + destruct (BardEngine sd) as [eng | e] eqn:Hb.
      * right.
        destruct (command_loop rest {| engine := eng; stdout := [ready]; calls := [] |})
          as [[r w'] u] eqn:Hloop.
        exists story, sd, eng, rest, r, w', u.
        repeat (split; [assumption || reflexivity |]).
        unfold main. rewrite (main_started story sd eng rest Hne Hl Hb), Hloop.
        destruct (command_loop_effect _ _ _ _ _ Hloop) as [[-> | [e ->]] _].
        -- left. split; reflexivity.
        -- right. exists e. split; reflexivity.
      * left. unfold main, main_body. apply String.eqb_neq in Hne. rewrite Hne, Hl, Hb.
        do 2 eexists. split; [| split; [| reflexivity]]; [reflexivity | simpl; tauto].
    + left. unfold main, main_body. apply String.eqb_neq in Hne. rewrite Hne, Hl.
      destruct (is_JSONDecodeError e);
        do 2 eexists; (split; [| split; [| reflexivity]]); [reflexivity | simpl; tauto
                                                           | reflexivity | simpl; tauto].
  - left. do 2 eexists. split; [| split; [| reflexivity]]; [reflexivity | simpl; tauto].
Qed.

Lemma is_response_not_ready (r : json) : is_response r -> r <> ready.
Proof.
  intros [[o ->] | (t & Ht & _)] E.
  - discriminate E.
  - rewrite E in Ht. discriminate Ht.
Qed.


Lemma recoverable_not_fatal (t : string) :
  In t recoverable_tags -> ~ In t fatal_tags.
Proof.
  unfold recoverable_tags, fatal_tags. simpl.
  intros H F.
  repeat (destruct H as [<- | H]; [repeat (destruct F as [F | F]; [discriminate F |]);
                                   exact F |]).
  exact H.
Qed.

(* --------------------------------------------------------------------- *)
(** *** Further properties of [main] and of the handler *)
(* --------------------------------------------------------------------- *)

(** X1: a story line that the decoder rejects, or a story that the
    engine's constructor rejects, ends the process with status 1 after
    exactly one line: [{"error": "Invalid story JSON", "message":
    str(e)}], or [{"error": "Engine initialization failed", "message":
    str(e), "traceback": ...}].  The ready signal is not written, no
    engine exists, and the rest of the input is not read. *)
Theorem startup_failure_reported (story : string) (rest : list read_event) :
  story <> "" ->
  (forall e : exn,
      json_loads story = Err e ->
      is_JSONDecodeError e = true ->
      main (Line story :: rest)
      = {| exit_status := 1;
           output := [JObj [("error", JStr "Invalid story JSON");
                            ("message", JStr (str e))]];
           unread := rest; final_engine := None; engine_calls := [] |})
  /\ (forall (sd : json) (e : exn),
        json_loads story = Ok sd ->
        BardEngine sd = Err e ->
        main (Line story :: rest)
        = {| exit_status := 1;
             output := [JObj [("error", JStr "Engine initialization failed");
                              ("message", JStr (str e));
                              ("traceback", JStr (format_exc e))]];
             unread := rest; final_engine := None; engine_calls := [] |}).
Proof.
  intros Hne. apply String.eqb_neq in Hne. split.
  - intros e Hl He. unfold main, main_body. rewrite Hne, Hl, He. reflexivity.
  - intros sd e Hl Hb. unfold main, main_body. rewrite Hne, Hl, Hb. reflexivity.
Qed.

(** X2: what no inner handler takes ends the process at the outer one,
    with [{"error": "Fatal error", "message": str(e)}] as the last line
    and status 1: a failed first read, a decoder that raises something
    else than a decoding error on the story, and a failed read in the
    loop, after the responses to the commands before it. *)
Theorem fatal_error_reported (e : exn) (rest : list read_event) :
  let fatal := JObj [("error", JStr "Fatal error"); ("message", JStr (str e))] in
  main (ReadError e :: rest)
  = {| exit_status := 1; output := [fatal]; unread := rest;
       final_engine := None; engine_calls := [] |}
  /\ (forall story : string,
        story <> "" ->
        json_loads story = Err e ->
        is_JSONDecodeError e = false ->
        main (Line story :: rest)
        = {| exit_status := 1; output := [fatal]; unread := rest;
             final_engine := None; engine_calls := [] |})
  /\ (forall (story : string) (sd : json) (eng : Engine EngineCore)
             (pre : list read_event),
        story <> "" ->
        json_loads story = Ok sd ->
        BardEngine sd = Ok eng ->
        forallb is_command pre = true ->
        let p := main (Line story :: pre) in
        main (Line story :: pre ++ ReadError e :: rest)
        = {| exit_status := 1; output := output p ++ [fatal]; unread := rest;
             final_engine := final_engine p; engine_calls := engine_calls p |}).
Proof.
  intros fatal. split; [reflexivity | split].
  - intros story Hne Hl He. apply String.eqb_neq in Hne.
    unfold main, main_body. rewrite Hne, Hl, He. reflexivity.
  - intros story sd eng pre Hne Hl Hb Hpre.
    destruct (command_loop_commands pre
                {| engine := eng; stdout := [ready]; calls := [] |} Hpre)
      as (w' & Hloop & _).
    assert (Hp : main (Line story :: pre)
                 = {| exit_status := 0; output := stdout w'; unread := [];
                      final_engine := Some (engine w'); engine_calls := calls w' |}).
    { unfold main. rewrite (main_started story sd eng pre Hne Hl Hb).
      rewrite <- (app_nil_r pre), Hloop. reflexivity. }
    rewrite Hp. unfold main.
    rewrite (main_started story sd eng (pre ++ ReadError e :: rest) Hne Hl Hb), Hloop.
    reflexivity.
Qed.

(** X3: the ready signal is written exactly when an engine was
    constructed; it is then the first line of the output and occurs
    nowhere else in it. *)
Theorem ready_signal_once (stdin : list read_event) :
  (In ready (output (main stdin)) <-> final_engine (main stdin) <> None)
  /\ (forall eng,
        final_engine (main stdin) = Some eng ->
        exists more, output (main stdin) = ready :: more /\ ~ In ready more).
Proof.
  destruct (main_shape stdin)
    as [(r & t & Ht & _ & ->)
       | (story & sd & eng & rest & r & w' & u & -> & _ & _ & _ & Hloop & Hm)].
  - simpl. split.
    + split; [| intros H; contradiction].
      intros [E | []]. rewrite E in Ht. discriminate Ht.
    + intros eng H. discriminate H.
  - destruct (command_loop_effect _ _ _ _ _ Hloop)
      as (_ & new & cs & Hs & Hf & _ & _ & _).
    simpl in Hs.
    assert (Hnew : ~ In ready new).
    { intros Hin. rewrite Forall_forall in Hf.
      exact (is_response_not_ready _ (Hf _ Hin) eq_refl). }
    destruct Hm as [[_ ->] | (e & _ & ->)]; simpl; rewrite Hs; simpl.
    + split; [split; [discriminate | auto] |].
      intros _ _. exists new. auto.
    + split; [split; [discriminate | auto] |].
      intros _ _. eexists. split; [reflexivity |].
      intros Hin. apply in_app_or in Hin as [Hin | [Hin | []]];
        [exact (Hnew Hin) | discriminate Hin].
Qed.

(** X4: every line [main] writes is the ready signal, a serialized
    output, or an error record with a known tag; which of the three it
    is shows in the line itself, since only error records have an
    [error] member and a serialized output is never the ready signal.
    No tag is both recoverable and fatal. *)
Theorem output_lines_classified (stdin : list read_event) (r : json) :
  In r (output (main stdin)) ->
  (r = ready
   \/ (exists o, r = serialize_output o)
   \/ (exists t, error_tag r = Some t /\ (In t recoverable_tags \/ In t fatal_tags)))
  /\ error_tag ready = None
  /\ (forall o, error_tag (serialize_output o) = None)
  /\ (forall o, serialize_output o <> ready)
  /\ (forall t, In t recoverable_tags -> ~ In t fatal_tags).
Proof.
  intros Hin.
  split; [| split; [reflexivity | split; [reflexivity | split;
              [intros o; discriminate | exact recoverable_not_fatal]]]].
  destruct (main_shape stdin)
    as [(r0 & t & Ht & Hft & Hm)
       | (story & sd & eng & rest & r0 & w' & u & -> & _ & _ & _ & Hloop & Hm)].
  - rewrite Hm in Hin. destruct Hin as [<- | []]. right; right. eauto.
  - destruct (command_loop_effect _ _ _ _ _ Hloop)
      as (_ & new & cs & Hs & Hf & _ & _ & _).
    simpl in Hs. rewrite Forall_forall in Hf.
    assert (Hold : In r (stdout w') ->
                   r = ready
                   \/ (exists o, r = serialize_output o)
                   \/ (exists t, error_tag r = Some t
                                 /\ (In t recoverable_tags \/ In t fatal_tags))).
    { rewrite Hs. intros [<- | Hn]; [left; reflexivity |].
      destruct (Hf _ Hn) as [Ho | (t & Ht & Hrt)]; [right; left; exact Ho |].
      right; right. eauto. }
    destruct Hm as [[_ Hm] | (e & _ & Hm)]; rewrite Hm in Hin; simpl in Hin.
    + exact (Hold Hin).
    + apply in_app_or in Hin as [Hin | [<- | []]]; [exact (Hold Hin) |].
      right; right. exists "Fatal error". split; [reflexivity | right; simpl; tauto].
Qed.



(** X6: a line makes at most one call of an engine method, and when
    it makes none the engine's core is as before; a whole run makes at
    most one call for each line after the story. *)
Theorem at_most_one_engine_call (stdin : list read_event) :
  (forall (line : string) (w : World),
      exists cs : list engine_call,
        calls (snd (handle_line line w)) = calls w ++ cs
        /\ (length cs <= 1)%nat
        /\ (cs = [] -> core (engine (snd (handle_line line w))) = core (engine w)))
  /\ (length (engine_calls (main stdin)) <= pred (length stdin))%nat.
Proof.
  split; [exact handle_line_calls |].
  destruct (main_shape stdin)
    as [(r0 & t0 & _ & _ & ->)
       | (story & sd & eng & rest & r0 & w' & u & -> & _ & _ & _ & Hloop & Hm)].
  - simpl. lia.
  - destruct (command_loop_effect _ _ _ _ _ Hloop)
      as (_ & new & cs & _ & _ & _ & Hc & Hl).
    simpl in Hc.
    destruct Hm as [[_ ->] | (e & _ & ->)]; simpl; rewrite Hc; exact Hl.
Qed.

(** X7: a command that reaches the engine is answered from what the
    method does: the serialized output when it returns, the error
    record when it raises; the engine is the one the call leaves and
    the trace grows by that one call.  A choice index is passed on as
    it is whenever it is not [null] (so also [0], [false] or the empty
    string); [current] ignores every other member of its command. *)
Theorem command_answered_from_engine
    (w : World) (line : string) (d : list (string * json)) :
  json_loads line = Ok (JObj d) ->
  (forall index : json,
      lookup "type" d = Some (JStr "choice") ->
      lookup "index" d = Some index ->
      index <> JNull ->
      let res := choose index (engine w) in
      handle_line line w
      = (Returns LoopNext,
         {| engine := snd res;
            stdout := stdout w
                      ++ [match fst res with
                          | Ok o => serialize_output o
                          | Err e => JObj [("error", JStr "Choice error");
                                           ("message", JStr (str e))]
                          end];
            calls := calls w ++ [CallChoose index] |}))
  /\ (lookup "type" d = Some (JStr "current") ->
      let res := current (engine w) in
      handle_line line w
      = (Returns LoopNext,
         {| engine := snd res;
            stdout := stdout w
                      ++ [match fst res with
                          | Ok o => serialize_output o
                          | Err e => JObj [("error", JStr "Engine error");
                                           ("message", JStr (str e))]
                          end];
            calls := calls w ++ [CallCurrent] |})).
Proof.
  intros Hl. split.
  - intros index Ht Hi Hn res.
    unfold_handler. rewrite Hl. unfold dict_get. rewrite Ht, Hi. simpl.
    subst res.
    destruct index; try contradiction; simpl;
      destruct (choose _ (engine w)) as [[o | e] eng']; reflexivity.
  - intros Ht res.
    unfold_handler. rewrite Hl. unfold dict_get. rewrite Ht. simpl.
    subst res. destruct (current (engine w)) as [[o | e] eng']; reflexivity.
Qed.

(** X8: a preview command with a passage and without a [state] member,
    or with an empty object, an empty list or an empty string for it,
    calls [goto] on the engine exactly as it is: the default overlay
    and the empty ones change nothing and raise nothing. *)
Theorem preview_with_empty_state
    (w : World) (line : string) (d : list (string * json)) (passage : json) :
  json_loads line = Ok (JObj d) ->
  lookup "type" d = Some (JStr "preview") ->
  lookup "passage" d = Some passage ->
  truthy passage = true ->
  lookup "state" d = None \/ lookup "state" d = Some (JObj [])
  \/ lookup "state" d = Some (JArr []) \/ lookup "state" d = Some (JStr "") ->
  let res := goto passage (engine w) in
  handle_line line w
  = (Returns LoopNext,
     {| engine := snd res;
        stdout := stdout w
                  ++ [match fst res with
                      | Ok o => serialize_output o
                      | Err e => JObj [("error", JStr "Engine error");
                                       ("message", JStr (str e))]
                      end];
        calls := calls w ++ [CallGoto passage] |}).
Proof.
  intros Hl Ht Hp Htr Hs res.
  assert (Ht' : dict_get d "type" JNull = JStr "preview")
    by (unfold dict_get; rewrite Ht; reflexivity).
  assert (Hp' : dict_get d "passage" JNull = passage)
    by (unfold dict_get; rewrite Hp; reflexivity).
  assert (Hu : update (state (engine w)) (dict_get d "state" (JObj []))
               = (state (engine w), None)).
  { unfold dict_get. destruct Hs as [-> | [-> | [-> | ->]]]; reflexivity. }
  unfold_handler. rewrite Hl. simpl. rewrite Ht'. simpl. rewrite Hp', Htr. simpl.
  rewrite Hu. simpl. subst res.
  replace {| state := state (engine w); core := core (engine w) |} with (engine w)
    by (destruct (engine w); reflexivity).
  destruct (goto passage (engine w)) as [[o | e] eng']; reflexivity.
Qed.

(** X9: [engine.state.update] never removes a key, whatever value it
    is given and whether it returns or raises; it touches nothing but
    the state. *)
Theorem state_update_never_deletes (other : json) (w : World) (k : pykey) :
  getitem k (state (engine w)) <> None ->
  let w' := snd (engine_state_update other w) in
  getitem k (state (engine w')) <> None
  /\ core (engine w') = core (engine w)
  /\ stdout w' = stdout w
  /\ calls w' = calls w.
Proof.
  intros H. unfold engine_state_update.
  pose proof (update_keeps k (state (engine w)) other H) as Hk.
  destruct (update (state (engine w)) other) as [st [e |]]; simpl in *; auto.
Qed.

(** X10: two overlays merged one after the other: a key reads as the
    second overlay has it, else as the first has it, else as the state
    had it before. *)
Theorem overlays_compose (o1 o2 : list (string * json)) (w : World) (k : string) :
  NoDup (keys o1) ->
  NoDup (keys o2) ->
  let w1 := snd (engine_state_update (JObj o1) w) in
  let w2 := snd (engine_state_update (JObj o2) w1) in
  getitem (KStr k) (state (engine w2))
  = match lookup k o2 with
    | Some v => Some v
    | None => match lookup k o1 with
              | Some v => Some v
              | None => getitem (KStr k) (state (engine w))
              end
    end.
Proof.
  intros H1 H2. simpl.
  destruct (lookup k o2) as [v |] eqn:E2.
  - apply getitem_merge_key; assumption.
  - rewrite getitem_merge_other by (apply lookup_None; exact E2).
    destruct (lookup k o1) as [v |] eqn:E1.
    + apply getitem_merge_key; assumption.
    + apply getitem_merge_other. apply lookup_None. exact E1.
Qed.

(** X11: a [state] value that is a list of [[key, value]] pairs with
    string keys is merged exactly like the object with those members:
    the value's type is not checked. *)
Theorem state_as_list_of_pairs (o : list (string * json)) (w : World) :
  engine_state_update (JArr (map (fun kv => JArr [JStr (fst kv); snd kv]) o)) w
  = engine_state_update (JObj o) w.
Proof.
  unfold engine_state_update. simpl. rewrite merge_seq_pairs. reflexivity.
Qed.


(** X13: when the [state] value of a preview command is a list that
    begins with [[key, value]] pairs and goes on with an element that
    cannot be iterated, the pairs before that element stay merged into
    the engine's state, although the command is answered with
    [Unexpected error] and [goto] is not called. *)
Theorem failed_merge_keeps_stored_pairs
    (w : World) (line : string) (d o : list (string * json))
    (passage bad : json) (more : list json) :
  json_loads line = Ok (JObj d) ->
  lookup "type" d = Some (JStr "preview") ->
  lookup "passage" d = Some passage ->
  truthy passage = true ->
  lookup "state" d
  = Some (JArr (map (fun kv => JArr [JStr (fst kv); snd kv]) o ++ bad :: more)) ->
  elements bad = None ->
  exists e : exn,
    exn_class e = TypeError
    /\ handle_line line w
       = (Returns LoopNext,
          {| engine := {| state := merge o (state (engine w));
                          core := core (engine w) |};
             stdout := stdout w ++ [JObj [("error", JStr "Unexpected error");
                                          ("message", JStr (str e))]];
             calls := calls w |}).
Proof.
  intros Hl Ht Hp Htr Hs Hbad.
  assert (Ht' : dict_get d "type" JNull = JStr "preview")
    by (unfold dict_get; rewrite Ht; reflexivity).
  assert (Hp' : dict_get d "passage" JNull = passage)
    by (unfold dict_get; rewrite Hp; reflexivity).
  eexists. split; [| unfold_handler; rewrite Hl; simpl; rewrite Ht'; simpl;
                     rewrite Hp', Htr; simpl; unfold dict_get; rewrite Hs; simpl;
                     rewrite merge_seq_pairs_app; simpl; unfold as_pair;
                     rewrite Hbad; reflexivity].
  reflexivity.
Qed.

End Facts.

(* ===================================================================== *)
(** ** The properties on the small engine *)
(* ===================================================================== *)

Lemma engine_failure_reported_witness :
  Demo.handle (Demo.text "{'type':'preview','passage':'cellar'}") Demo.w0
  = (Returns LoopNext,
     {| engine := Demo.eng0;
        stdout := [ready; JObj [("error", JStr "Engine error");
                                ("message", JStr "Passage 'cellar' not found")]];
        calls := [CallGoto (JStr "cellar")] |})
  /\ Demo.handle (Demo.text "{'type':'choice','index':7}") Demo.w0
     = (Returns LoopNext,
        {| engine := Demo.eng0;
           stdout := [ready; JObj [("error", JStr "Choice error");
                                   ("message", JStr "Choice index out of range")]];
           calls := [CallChoose (JInt 7)] |})
  /\ Demo.handle (Demo.text "{'type':'current'}") Demo.w_lost
     = (Returns LoopNext,
        {| engine := engine Demo.w_lost;
           stdout := [ready; JObj [("error", JStr "Engine error");
                                   ("message", JStr "Passage 'limbo' not found")]];
           calls := [CallCurrent] |}).
Proof.
  split; [| split].
  - refine (proj1 (proj1 (@engine_failure_reported string Demo.loads Demo.goto Demo.choose
                     Demo.current Demo.w0
                     (Demo.text "{'type':'preview','passage':'cellar'}")
                     [("type", JStr "preview"); ("passage", JStr "cellar")] [] _ _)
                   (JStr "cellar") [] (Exn ValueError "Passage 'cellar' not found")
                   Demo.eng0 _ _ _ _ _));
      solve [reflexivity | vm_compute; reflexivity | vm_compute; discriminate].
  - refine (proj1 (proj1 (proj2 (@engine_failure_reported string Demo.loads Demo.goto
                     Demo.choose Demo.current Demo.w0
                     (Demo.text "{'type':'choice','index':7}")
                     [("type", JStr "choice"); ("index", JInt 7)] [] _ _))
                   (JInt 7) (Exn (OtherError "IndexError") "Choice index out of range")
                   Demo.eng0 _ _ _ _));
      solve [reflexivity | vm_compute; reflexivity | vm_compute; discriminate
            | discriminate].
  - refine (proj1 (proj1 (proj2 (proj2 (@engine_failure_reported string Demo.loads
                     Demo.goto Demo.choose Demo.current Demo.w_lost
                     (Demo.text "{'type':'current'}")
                     [("type", JStr "current")] [] _ _)))
                   (Exn ValueError "Passage 'limbo' not found")
                   (engine Demo.w_lost) _ _));
      solve [reflexivity | vm_compute; reflexivity | vm_compute; discriminate].
Defined.

Lemma serialize_output_faithful_witness :
  (exists tag more,
      JObj [("content", JStr "You have nothing."); ("choices", JArr []);
            ("passage_id", JStr "end"); ("has_choices", JBool false)]
      = JObj (("error", JStr tag) :: more))
  \/ (exists (o : PassageOutput) (b : bool),
        JObj [("content", JStr "You have nothing."); ("choices", JArr []);
              ("passage_id", JStr "end"); ("has_choices", JBool false)]
        = JObj [("content", JStr (content o)); ("choices", JArr (choices o));
                ("passage_id", JStr (passage_id o)); ("has_choices", JBool b)]
        /\ (b = true <-> (length (choices o) > 0)%nat)).
Proof.
  refine (proj2 (@serialize_output_faithful string Demo.loads Demo.goto Demo.choose
                   Demo.current)
            (Demo.text "{'type':'preview','passage':'end'}") Demo.w0 _ _).
  vm_compute. left. reflexivity.
Defined.

Lemma overlay_merged_before_goto_witness :
  getitem (KStr "gold")
    (state (engine (snd (Demo.handle
       (Demo.text "{'type':'preview','passage':'cellar','state':{'gold':5}}")
       Demo.w_poor))))
  = Some (JInt 5)
  /\ getitem (KStr "name")
       (state (engine (snd (Demo.handle
          (Demo.text "{'type':'preview','passage':'cellar','state':{'gold':5}}")
          Demo.w_poor))))
     = Some (JStr "Ann").
Proof.
  pose proof (@overlay_merged_before_goto string Demo.loads Demo.goto Demo.choose
                Demo.current Demo.w_poor
                (Demo.text "{'type':'preview','passage':'cellar','state':{'gold':5}}")
                [("type", JStr "preview"); ("passage", JStr "cellar");
                 ("state", JObj [("gold", JInt 5)])]
                [("gold", JInt 5)] (JStr "cellar") []) as H.
  destruct H as (Hkey & Hother & Hrun & _ & Hkeep).
  - vm_compute. discriminate.
  - vm_compute. reflexivity.
  - reflexivity.
  - reflexivity.
  - reflexivity.
  - reflexivity.
  - repeat constructor. intros [].
  - unfold Demo.handle. rewrite Hrun. cbn [snd].
    rewrite (Hkeep (Exn ValueError "Passage 'cellar' not found"));
      [| vm_compute; reflexivity].
    split.
    + apply Hkey. reflexivity.
    + rewrite Hother; [reflexivity |].
      intros k [<- | []]. discriminate.
Defined.

Lemma choice_without_index_witness :
  Demo.handle (Demo.text "{'type':'choice','index':null}") Demo.w0
  = (Returns LoopNext, emit (JObj [("error", JStr "Missing choice index")]) Demo.w0).
Proof.
  refine (proj1 (@choice_without_index string Demo.loads Demo.goto Demo.choose Demo.current
                   Demo.w0 (Demo.text "{'type':'choice','index':null}")
                   [("type", JStr "choice"); ("index", JNull)] [] _ _ _ _)).
  - vm_compute. discriminate.
  - vm_compute. reflexivity.
  - reflexivity.
  - right. reflexivity.
Defined.

Lemma preview_without_passage_witness :
  Demo.handle (Demo.text "{'type':'preview','passage':'','state':{'gold':5}}") Demo.w0
  = (Returns LoopNext, emit (JObj [("error", JStr "Missing passage ID")]) Demo.w0).
Proof.
  refine (proj1 (@preview_without_passage string Demo.loads Demo.goto Demo.choose
                   Demo.current Demo.w0
                   (Demo.text "{'type':'preview','passage':'','state':{'gold':5}}")
                   [("type", JStr "preview"); ("passage", JStr "");
                    ("state", JObj [("gold", JInt 5)])] [] _ _ _ _)).
  - vm_compute. discriminate.
  - vm_compute. reflexivity.
  - reflexivity.
  - right. exists (JStr ""). split; reflexivity.
Defined.

Lemma unknown_command_type_witness :
  Demo.handle (Demo.text "{'type':'rewind'}") Demo.w0
  = (Returns LoopNext,
     emit (JObj [("error", JStr "Unknown command type"); ("type", JStr "rewind")])
       Demo.w0).
Proof.
  refine (proj1 (@unknown_command_type string Demo.loads Demo.goto Demo.choose Demo.current
                   Demo.w0 (Demo.text "{'type':'rewind'}")
                   [("type", JStr "rewind")] [] _ _ _ _ _ _)).
  - vm_compute. discriminate.
  - vm_compute. reflexivity.
  - discriminate.
  - discriminate.
  - discriminate.
  - discriminate.
Defined.

Lemma invalid_json_line_witness :
  Demo.handle (Demo.text "{'type':") Demo.w0
  = (Returns LoopNext,
     emit (JObj [("error", JStr "Invalid JSON"); ("message", JStr "Expecting value")])
       Demo.w0).
Proof.
  refine (proj1 (@invalid_json_line string Demo.loads Demo.goto Demo.choose Demo.current
                   Demo.w0 (Demo.text "{'type':")
                   (Exn JSONDecodeError "Expecting value") [] _ _ _)).
  - vm_compute. discriminate.
  - vm_compute. reflexivity.
  - reflexivity.
Defined.

Lemma exit_and_end_of_input_witness :
  exit_status (Demo.run [Line Demo.story; Line (Demo.text "{'type':'current'}");
                         Line (Demo.text "{'type':'choice','index':0}")]) = 0%Z.
Proof.
  refine (proj1 (@exit_and_end_of_input string Demo.loads Demo.BardEngine Demo.goto
                   Demo.choose Demo.current Demo.format_exc Demo.story
                   (JObj [("title", JStr "demo")]) Demo.eng0
                   [Line (Demo.text "{'type':'current'}");
                    Line (Demo.text "{'type':'choice','index':0}")] _ _ _ _)).
  - vm_compute. discriminate.
  - vm_compute. reflexivity.
  - reflexivity.
  - vm_compute. reflexivity.
Defined.

Lemma unexpected_error_caught_witness :
  exists e : exn,
    get (JArr [JInt 1; JInt 2]) "type" JNull = Err e
    /\ exn_class e = AttributeError
    /\ Demo.handle (Demo.text "[1, 2]") Demo.w0
       = (Returns LoopNext,
          emit (JObj [("error", JStr "Unexpected error"); ("message", JStr (str e))])
            Demo.w0)
    /\ Demo.loop [Line (Demo.text "[1, 2]")] Demo.w0
       = Demo.loop []
           (emit (JObj [("error", JStr "Unexpected error"); ("message", JStr (str e))])
              Demo.w0).
Proof.
  refine (proj1 (proj2 (@unexpected_error_caught string Demo.loads Demo.BardEngine
                          Demo.goto Demo.choose Demo.current Demo.format_exc
                          Demo.w0 (Demo.text "[1, 2]") [] _))
            (JArr [JInt 1; JInt 2]) _ _).
  - vm_compute. discriminate.
  - vm_compute. reflexivity.
  - discriminate.
Defined.

(* ===================================================================== *)
(** ** The further properties on the small engine *)
(* ===================================================================== *)

Lemma startup_failure_reported_witness :
  Demo.run [Line (Demo.text "{'title':"); Line (Demo.text "{'type':'current'}")]
  = {| exit_status := 1;
       output := [JObj [("error", JStr "Invalid story JSON");
                        ("message", JStr "Expecting value")]];
       unread := [Line (Demo.text "{'type':'current'}")];
       final_engine := None; engine_calls := [] |}
  /\ Demo.run [Line (Demo.text "[1]")]
     = {| exit_status := 1;
          output := [JObj [("error", JStr "Engine initialization failed");
                           ("message", JStr "'passages'");
                           ("traceback",
                            JStr "Traceback (most recent call last): 'passages'")]];
          unread := []; final_engine := None; engine_calls := [] |}.
Proof.
  split.
  - refine (proj1 (@startup_failure_reported string Demo.loads Demo.BardEngine Demo.goto
                     Demo.choose Demo.current Demo.format_exc (Demo.text "{'title':")
                     [Line (Demo.text "{'type':'current'}")] _)
              (Exn JSONDecodeError "Expecting value") _ _).
    + vm_compute. discriminate.
    + vm_compute. reflexivity.
    + reflexivity.
  - refine (proj2 (@startup_failure_reported string Demo.loads Demo.BardEngine Demo.goto
                     Demo.choose Demo.current Demo.format_exc (Demo.text "[1]") [] _)
              (JArr [JInt 1]) (Exn (OtherError "KeyError") "'passages'") _ _).
    + vm_compute. discriminate.
    + vm_compute. reflexivity.
    + reflexivity.
Defined.

Lemma output_lines_classified_witness :
  JObj [("error", JStr "Engine error"); ("message", JStr "Passage 'cellar' not found")]
  = ready
  \/ (exists o,
        JObj [("error", JStr "Engine error");
              ("message", JStr "Passage 'cellar' not found")]
        = serialize_output o)
  \/ (exists t,
        error_tag (JObj [("error", JStr "Engine error");
                         ("message", JStr "Passage 'cellar' not found")]) = Some t
        /\ (In t recoverable_tags \/ In t fatal_tags)).
Proof.
  refine (proj1 (@output_lines_classified string Demo.loads Demo.BardEngine Demo.goto
                   Demo.choose Demo.current Demo.format_exc
                   [Line Demo.story;
                    Line (Demo.text "{'type':'preview','passage':'cellar'}")]
                   _ _)).
  vm_compute. right. left. reflexivity.
Defined.

Lemma command_answered_from_engine_witness :
  Demo.handle (Demo.text "{'type':'choice','index':0}") Demo.w0
  = (Returns LoopNext,
     {| engine := {| state := []; core := "end" |};
        stdout := [ready;
                   JObj [("content", JStr "You have nothing."); ("choices", JArr []);
                         ("passage_id", JStr "end"); ("has_choices", JBool false)]];
        calls := [CallChoose (JInt 0)] |}).
Proof.
  refine (proj1 (@command_answered_from_engine string Demo.loads Demo.goto Demo.choose
                   Demo.current Demo.w0 (Demo.text "{'type':'choice','index':0}")
                   [("type", JStr "choice"); ("index", JInt 0)] _)
            (JInt 0) _ _ _).
  - vm_compute. reflexivity.
  - reflexivity.
  - reflexivity.
  - discriminate.
Defined.

Lemma preview_with_empty_state_witness :
  Demo.handle (Demo.text "{'type':'preview','passage':'end','state':[]}") Demo.w_poor
  = (Returns LoopNext,
     {| engine := {| state := [(KStr "name", JStr "Ann"); (KStr "gold", JInt 0)];
                     core := "end" |};
        stdout := [ready;
                   JObj [("content", JStr "You are poor."); ("choices", JArr []);
                         ("passage_id", JStr "end"); ("has_choices", JBool false)]];
        calls := [CallGoto (JStr "end")] |}).
Proof.
  refine (@preview_with_empty_state string Demo.loads Demo.goto Demo.choose Demo.current
            Demo.w_poor (Demo.text "{'type':'preview','passage':'end','state':[]}")
            [("type", JStr "preview"); ("passage", JStr "end"); ("state", JArr [])]
            (JStr "end") _ _ _ _ _).
  - vm_compute. reflexivity.
  - reflexivity.
  - reflexivity.
  - reflexivity.
  - right. right. left. reflexivity.
Defined.

Lemma state_update_never_deletes_witness :
  getitem (KStr "name")
    (state (engine (snd (engine_state_update
                           (JArr [JArr [JStr "name"; JStr "Bob"]; JInt 5])
                           Demo.w_poor))))
  <> None.
Proof.
  refine (proj1 (@state_update_never_deletes string
                   (JArr [JArr [JStr "name"; JStr "Bob"]; JInt 5]) Demo.w_poor
                   (KStr "name") _)).
  vm_compute. discriminate.
Defined.

Lemma overlays_compose_witness :
  getitem (KStr "gold")
    (state (engine (snd (engine_state_update
                           (JObj [("gold", JInt 7); ("level", JInt 2)])
                           (snd (engine_state_update (JObj [("gold", JInt 5)])
                                   Demo.w_poor))))))
  = Some (JInt 7).
Proof.
  refine (@overlays_compose string [("gold", JInt 5)]
            [("gold", JInt 7); ("level", JInt 2)] Demo.w_poor "gold" _ _).
  - repeat constructor; simpl; intuition discriminate.
  - repeat constructor; simpl; intuition discriminate.
Defined.

Lemma failed_merge_keeps_stored_pairs_witness :
  exists e : exn,
    exn_class e = TypeError
    /\ Demo.handle (Demo.text "{'type':'preview','passage':'end','state':[['gold',5],7]}")
         Demo.w0
       = (Returns LoopNext,
          {| engine := {| state := merge [("gold", JInt 5)] []; core := "start" |};
             stdout := [ready] ++ [JObj [("error", JStr "Unexpected error");
                                         ("message", JStr (str e))]];
             calls := [] |}).
Proof.
  refine (@failed_merge_keeps_stored_pairs string Demo.loads Demo.goto Demo.choose
            Demo.current Demo.w0
            (Demo.text "{'type':'preview','passage':'end','state':[['gold',5],7]}")
            [("type", JStr "preview"); ("passage", JStr "end");
             ("state", JArr [JArr [JStr "gold"; JInt 5]; JInt 7])]
            [("gold", JInt 5)] (JStr "end") (JInt 7) [] _ _ _ _ _ _).
  - vm_compute. reflexivity.
  - reflexivity.
  - reflexivity.
  - reflexivity.
  - reflexivity.
  - reflexivity.
Defined.

Lemma fatal_error_reported_witness :
  Demo.run [Line Demo.story; Line (Demo.text "{'type':'current'}");
            ReadError (Exn (OtherError "UnicodeDecodeError") "invalid start byte");
            Line (Demo.text "{'type':'exit'}")]
  = {| exit_status := 1;
       output := output (Demo.run [Line Demo.story; Line (Demo.text "{'type':'current'}")])
                 ++ [JObj [("error", JStr "Fatal error");
                           ("message", JStr "invalid start byte")]];
       unread := [Line (Demo.text "{'type':'exit'}")];
       final_engine := final_engine
                         (Demo.run [Line Demo.story; Line (Demo.text "{'type':'current'}")]);
       engine_calls := engine_calls
                         (Demo.run [Line Demo.story; Line (Demo.text "{'type':'current'}")])
    |}.
Proof.
  refine (proj2 (proj2 (@fatal_error_reported string Demo.loads Demo.BardEngine Demo.goto
                          Demo.choose Demo.current Demo.format_exc
                          (Exn (OtherError "UnicodeDecodeError") "invalid start byte")
                          [Line (Demo.text "{'type':'exit'}")]))
            Demo.story (JObj [("title", JStr "demo")]) Demo.eng0
            [Line (Demo.text "{'type':'current'}")] _ _ _ _).
  - vm_compute. discriminate.
  - vm_compute. reflexivity.
  - reflexivity.
  - vm_compute. reflexivity.
Defined.
